(** * Upload-to-asset pipeline of the video service: model and properties

    The development embeds the two upload handlers
    ([handlerUploadThumbnail], [handlerUploadVideo]) and their helpers
    ([getVideoAspectRatio], [processVideoForFastStart],
    [generatePresignedURL], [dbVideoToSignedVideo]) as executable
    definitions, and states the properties of the design document about
    them.  [handlerUploadVideo] follows the revision that probes and
    remuxes the upload and stores the composite reference; the file
    [handler_upload_video.go] holds an earlier revision of the same
    function, with the same steps up to the staging of the upload.

    Conventions.
    - Go strings are byte strings: [string].
    - Go [int] and durations are [Z]; [float64] is IEEE binary64, taken from
      the Standard Library's [SpecFloat] with [prec = 53], [emax = 1024].
    - A Go [(T, error)] result is an [outcome T].
    - The handlers run in a small state monad over [State]: the record
      store, the local disk, the object store, the response written so far,
      the stack of deferred calls and a log of the effects performed.
      [if err != nil { respondWithError(...); return }] is [orRespond];
      [defer] pushes a call that [serve] runs when the handler returns.
    - What the operating system, the external processes and the remote
      services answer during a request is an [Env]; the pure functions of
      the libraries and of the rest of the repository are a
      [Collaborators]. *)

From Stdlib Require Import ZArith Lia Ascii String.
From Stdlib Require Import Floats.SpecFloat.
From stdpp Require Import base option strings gmap list.

Local Open Scope Z_scope.
Local Open Scope bool_scope.

(** ** Errors and results *)

(** The [error] values built in the modelled files, one constructor per
    [fmt.Errorf] call site; [External] is an error handed back by a
    collaborator or by the operating system. *)
Inductive error : Type :=
  | External (msg : string)
  | ErrFfprobeFailed (cause : error)
  | ErrFfprobeParse (cause : error)
  | ErrNoVideoStreams
  | ErrHeightZero
  | ErrProcessFailed (stderr : string) (cause : error)
  | ErrStatFailed (cause : error)
  | ErrProcessedEmpty
  | ErrPresign (cause : error)
  | ErrURLFormat (url : string)
  | ErrPresignVideo (cause : error).

(** [err.Error()]: the message each [fmt.Errorf] format string renders. *)
Fixpoint Error (e : error) : string :=
  match e with
  | External msg => msg
  | ErrFfprobeFailed c => "ffprobe command failed: " +:+ Error c
  | ErrFfprobeParse c => "could not parse ffprobe output: " +:+ Error c
  | ErrNoVideoStreams => "no video streams found"
  | ErrHeightZero => "video height is zero, cannot determine aspect ratio"
  | ErrProcessFailed stderr c =>
      "couldn't process video: " +:+ stderr +:+ ", " +:+ Error c
  | ErrStatFailed c => "couldn't stat processed file: " +:+ Error c
  | ErrProcessedEmpty => "processed file is empty"
  | ErrPresign c => "couldn't generate presigned URL: " +:+ Error c
  | ErrURLFormat url => "video URL is not in the expected format: " +:+ url
  | ErrPresignVideo c =>
      "couldn't generate presigned URL for video: " +:+ Error c
  end.

Inductive outcome (A : Type) : Type :=
  | Ok (a : A)
  | Fail (e : error).
Arguments Ok {A} a.
Arguments Fail {A} e.

(** ** Strings *)

Module GoStrings.

(** [strings.Split(s, sep)] for a one-byte separator: the substrings of [s]
    between the occurrences of [sep], in order; a string without [sep]
    gives the one-element slice holding [s]. *)
Fixpoint Split (s : string) (sep : ascii) : list string :=
  match s with
  | EmptyString => [EmptyString]
  | String c rest =>
      if Ascii.eqb c sep then EmptyString :: Split rest sep
      else match Split rest sep with
           | seg :: segs => String c seg :: segs
           | [] => [String c EmptyString]
           end
  end.

(** [strings.Join(elems, sep)]. *)
Fixpoint Join (elems : list string) (sep : string) : string :=
  match elems with
  | [] => EmptyString
  | [x] => x
  | x :: rest => x +:+ sep +:+ Join rest sep
  end.

(** [strings.Count(s, sep)] for a one-byte separator. *)
Fixpoint Count (s : string) (sep : ascii) : nat :=
  match s with
  | EmptyString => 0%nat
  | String c rest =>
      if Ascii.eqb c sep then S (Count rest sep) else Count rest sep
  end.

(** [strings.Contains(s, substr)], as a proposition. *)
Definition Contains (s substr : string) : Prop :=
  ∃ pre post, s = pre +:+ substr +:+ post.

End GoStrings.
Import GoStrings.

Definition comma : ascii := ","%char.

(** ** The composite object reference *)

(** Line 149 of the video handler:
    [fmt.Sprintf("%s,%s", cfg.s3Bucket, s3FileKey)]. *)
Definition encodeVideoURL (bucket key : string) : string :=
  bucket +:+ "," +:+ key.

(** Lines 259-265, the decoding half of [dbVideoToSignedVideo]:
    [urlSlice := strings.Split(url, ",")], rejected unless
    [len(urlSlice) = 2], then [urlSlice[0]] and [urlSlice[1]]. *)
Definition decodeVideoURL (url : string) : outcome (string * string) :=
  match Split url comma with
  | [videoBucket; videoKey] => Ok (videoBucket, videoKey)
  | _ => Fail (ErrURLFormat url)
  end.

(** ** float64 *)

Module Float64.

Definition prec : Z := 53.
Definition emax : Z := 1024.

(** [float64(n)] for a Go [int]: the nearest binary64, ties to even. *)
Definition of_int (n : Z) : spec_float := binary_normalize prec emax n 0 false.

Definition zero : spec_float := S754_zero false.
Definition div : spec_float → spec_float → spec_float := SFdiv prec emax.
Definition add : spec_float → spec_float → spec_float := SFadd prec emax.
Definition sub : spec_float → spec_float → spec_float := SFsub prec emax.
Definition eqb : spec_float → spec_float → bool := SFeqb.
Definition leb : spec_float → spec_float → bool := SFleb.
(** [x >= y] *)
Definition geb (x y : spec_float) : bool := SFleb y x.

End Float64.

(** ** Aspect classification (lines 194-210 of [getVideoAspectRatio]) *)

(** The three float64 variables of the function.  Their initialisers are
    constant expressions, evaluated exactly and then rounded once to
    float64, which is what one correctly rounded division computes. *)
Definition verticalAspectRatio : spec_float :=
  Float64.div (Float64.of_int 9) (Float64.of_int 16).
Definition horizontalAspectRatio : spec_float :=
  Float64.div (Float64.of_int 16) (Float64.of_int 9).
Definition aspectRatioTolerance : spec_float :=
  Float64.div (Float64.of_int 1) (Float64.of_int 20).

(** [aspectRatio >= ref-aspectRatioTolerance &&
     aspectRatio <= ref+aspectRatioTolerance] *)
Definition withinTolerance (aspectRatio ref : spec_float) : bool :=
  Float64.geb aspectRatio (Float64.sub ref aspectRatioTolerance)
  && Float64.leb aspectRatio (Float64.add ref aspectRatioTolerance).

(** From the conversion of the first stream's [Width] and [Height] to the
    end of [getVideoAspectRatio]. *)
Definition aspectRatioOf (Width Height : Z) : outcome string :=
  let width := Float64.of_int Width in
  let height := Float64.of_int Height in
  if Float64.eqb height Float64.zero then Fail ErrHeightZero
  else
    let aspectRatio := Float64.div width height in
    if withinTolerance aspectRatio verticalAspectRatio then Ok "9:16"
    else if withinTolerance aspectRatio horizontalAspectRatio then Ok "16:9"
    else Ok "other".

(** The [switch aspectRatio] of [handlerUploadVideo] (lines 105-113). *)
Definition directoryOf (aspectRatio : string) : string :=
  if String.eqb aspectRatio "9:16" then "portrait"
  else if String.eqb aspectRatio "16:9" then "landscape"
  else "other".

(** What running [ffprobe] on the staged file gave: a failed run, or its
    standard output as [json.Unmarshal] decodes it, the [(Width, Height)]
    of each entry of ["streams"]. *)
Inductive ProbeRun : Type :=
  | ProbeExit (err : error)
  | ProbeOutput (decoded : outcome (list (Z * Z))).

Definition getVideoAspectRatio (run : ProbeRun) : outcome string :=
  match run with
  | ProbeExit err => Fail (ErrFfprobeFailed err)
  | ProbeOutput (Fail err) => Fail (ErrFfprobeParse err)
  | ProbeOutput (Ok []) => Fail ErrNoVideoStreams
  | ProbeOutput (Ok ((Width, Height) :: _)) => aspectRatioOf Width Height
  end.

(** ** Records, requests and the world *)

Definition uuid : Type := N.
Definition Time : Type := Z.

(** [time.Minute], in nanoseconds. *)
Definition Minute : Z := 60 * 1000000000.

Definition StatusOK : Z := 200.
Definition StatusBadRequest : Z := 400.
Definition StatusUnauthorized : Z := 401.
Definition StatusInternalServerError : Z := 500.

(** Modelled from the spec: [database.Video] is declared outside the
    modelled files.  The fields are those of the design document's
    VideoRecord, under the names the handlers use. *)
Record Video : Type := mkVideo {
  ID : uuid;
  UpdatedAt : Time;
  ThumbnailURL : option string;
  VideoURL : option string;
  UserID : uuid
}.

Definition setThumbnailURL (p : option string) (v : Video) : Video :=
  mkVideo (ID v) (UpdatedAt v) p (VideoURL v) (UserID v).
Definition setVideoURL (p : option string) (v : Video) : Video :=
  mkVideo (ID v) (UpdatedAt v) (ThumbnailURL v) p (UserID v).
Definition setUpdatedAt (t : Time) (v : Video) : Video :=
  mkVideo (ID v) t (ThumbnailURL v) (VideoURL v) (UserID v).

(** [apiConfig], the fields the handlers read directly. *)
Record apiConfig : Type := mkConfig {
  jwtSecret : string;
  s3Bucket : string
}.

(** One file part of a multipart form: its [Content-Type] header as
    [header.Header.Get] returns it (empty when absent) and its bytes. *)
Record Part : Type := mkPart {
  ContentType : string;
  Data : string
}.

Record Request : Type := mkRequest {
  (** [r.PathValue("videoID")] *)
  videoIDString : string;
  (** [r.Header] *)
  Header : list (string * string);
  (** length of the body, in bytes *)
  ContentLength : Z;
  (** the body as the multipart reader decodes it: the file parts by field
      name, or the framing error *)
  MultipartForm : outcome (list (string * Part))
}.

(** The pure collaborators: functions of the repository and of its
    libraries that live outside the modelled files. *)
Record Collaborators : Type := mkCollaborators {
  uuid_Parse : string → outcome uuid;
  GetBearerToken : list (string * string) → outcome string;
  ValidateJWT : string → string → outcome uuid;
  (** [mime.ParseMediaType]: the media type and its parameters *)
  ParseMediaType : string → outcome (string * list (string * string));
  (** [getAssetPath(mediaType)]: a fresh key with the type's extension *)
  getAssetPath : string → string;
  getAssetDiskPath : string → string;
  getAssetURL : string → string;
  filepath_Join : string → string → string;
  (** [PresignGetObject] with [s3.WithPresignExpires]: bucket, key, expiry *)
  PresignGetObject : string → string → Z → outcome string
}.

(** What running [ffmpeg] did: its exit status, what it printed on its
    error stream, and the bytes it left at its output path, if any. *)
Record RemuxRun : Type := mkRemuxRun {
  exitError : option error;
  stderrText : string;
  written : option string
}.

(** How the operating system and the remote services answer during one
    request. *)
Record Env : Type := mkEnv {
  (** [time.Now()] *)
  now : Time;
  (** [os.Create] *)
  createError : option error;
  (** [io.Copy] *)
  copyError : option error;
  (** [os.CreateTemp]: the name of the new file *)
  createTemp : outcome string;
  (** [tempFile.Seek] *)
  seekError : option error;
  ffprobe : ProbeRun;
  ffmpeg : RemuxRun;
  (** [os.Open] *)
  openError : option error;
  (** [s3Client.PutObject] *)
  putObjectError : option error;
  (** [db.UpdateVideo] *)
  updateVideoError : option error
}.

(** The effects a handler performs, in the order it performs them. *)
Inductive Event : Type :=
  | EvGetVideo (id : uuid)
  | EvUpdateVideo (v : Video)
  | EvParseMultipartForm
  | EvFormFile (field : string)
  | EvCreate (path : string)
  | EvCreateTemp (path : string)
  | EvCopy (path : string)
  | EvSeek (path : string)
  | EvProbe (path : string)
  | EvRemux (input output : string)
  | EvStat (path : string)
  | EvOpen (path : string)
  | EvClose (name : string)
  | EvRemove (path : string)
  | EvPutObject (bucket key contentType : string)
  | EvPresign (bucket key : string) (expires : Z)
  | EvRespond (code : Z).

Inductive Payload : Type :=
  | ErrorBody (msg : string) (detail : option error)
  | VideoBody (v : Video).

Record Response : Type := mkResponse {
  StatusCode : Z;
  Body : Payload
}.

Inductive Deferred : Type :=
  | DeferClose (name : string)
  | DeferRemove (path : string).

Record State : Type := mkState {
  (** the record store, by record id *)
  db : gmap uuid Video;
  (** the local disk: contents by path *)
  disk : gmap string string;
  (** the object store: body and content type by bucket and key *)
  objects : gmap (string * string) (string * string);
  (** what the handler wrote to its [http.ResponseWriter] *)
  response : option Response;
  (** the calls deferred so far, the latest first *)
  deferred : list Deferred;
  (** the effects so far, the earliest first *)
  log : list Event
}.

Definition setDb (d : gmap uuid Video) (s : State) : State :=
  mkState d (disk s) (objects s) (response s) (deferred s) (log s).
Definition setDisk (d : gmap string string) (s : State) : State :=
  mkState (db s) d (objects s) (response s) (deferred s) (log s).
Definition setObjects (o : gmap (string * string) (string * string))
    (s : State) : State :=
  mkState (db s) (disk s) o (response s) (deferred s) (log s).
Definition setResponse (r : option Response) (s : State) : State :=
  mkState (db s) (disk s) (objects s) r (deferred s) (log s).
Definition setDeferred (d : list Deferred) (s : State) : State :=
  mkState (db s) (disk s) (objects s) (response s) d (log s).
Definition record (e : Event) (s : State) : State :=
  mkState (db s) (disk s) (objects s) (response s) (deferred s) (log s ++ [e]).

(** The records handed to [db.UpdateVideo], in order. *)
Fixpoint updatesIn (events : list Event) : list Video :=
  match events with
  | [] => []
  | EvUpdateVideo v :: rest => v :: updatesIn rest
  | _ :: rest => updatesIn rest
  end.

(** A request arrives with nothing written, deferred or logged yet. *)
Definition initial (d : gmap uuid Video) (files : gmap string string)
    (o : gmap (string * string) (string * string)) : State :=
  mkState d files o None [] [].

(** ** The handler monad *)

(** A step either goes on with a value or has executed [return]. *)
Inductive Flow (A : Type) : Type :=
  | Next (a : A) (s : State)
  | Returned (s : State).
Arguments Next {A} a s.
Arguments Returned {A} s.

Definition Handler (A : Type) : Type := State → Flow A.

Definition ret {A} (a : A) : Handler A := λ s, Next a s.

Definition bind {A B} (m : Handler A) (k : A → Handler B) : Handler B :=
  λ s, match m s with
       | Next a s' => k a s'
       | Returned s' => Returned s'
       end.

(** Go's [return] in a handler. *)
Definition return_ {A} : Handler A := λ s, Returned s.

Definition modify (f : State → State) : Handler unit := λ s, Next tt (f s).

Notation "'let*' x ':=' m 'in' k" := (bind m (λ x, k))
  (at level 10, x pattern, m at level 100, k at level 200).
Notation "m ';;' k" := (bind m (λ _, k))
  (at level 100, k at level 200, right associativity).

Definition finalState {A} (f : Flow A) : State :=
  match f with Next _ s => s | Returned s => s end.

Definition runDeferredCall (d : Deferred) (s : State) : State :=
  match d with
  | DeferClose name => record (EvClose name) s
  | DeferRemove path => record (EvRemove path) (setDisk (delete path (disk s)) s)
  end.

(** The deferred calls run when the function returns, last deferred first. *)
Fixpoint runDeferred (ds : list Deferred) (s : State) : State :=
  match ds with
  | [] => s
  | d :: rest => runDeferred rest (runDeferredCall d s)
  end.

(** One call of a handler, from entry to the end of its deferred calls.
    The call starts with its own response writer and nothing deferred. *)
Definition serve (h : Handler unit) (s : State) : State :=
  let s' := finalState (h (setResponse None (setDeferred [] s))) in
  runDeferred (deferred s') (setDeferred [] s').

(** The status code written to the response, if any. *)
Definition status (s : State) : option Z :=
  match response s with
  | Some resp => Some (StatusCode resp)
  | None => None
  end.

Definition defer (d : Deferred) : Handler unit :=
  modify (λ s, setDeferred (d :: deferred s) s).

(** Modelled from the spec: [respondWithError] and [respondWithJSON] are
    declared outside the modelled files; they write the status code and
    the body, the error message or the record. *)
Definition respondWithError (code : Z) (msg : string) (err : option error)
    : Handler unit :=
  modify (λ s, record (EvRespond code)
                 (setResponse (Some (mkResponse code (ErrorBody msg err))) s)).

Definition respondWithJSON (code : Z) (payload : Video) : Handler unit :=
  modify (λ s, record (EvRespond code)
                 (setResponse (Some (mkResponse code (VideoBody payload))) s)).

(** [x, err := f(); if err != nil { respondWithError(w, code, msg, err); return }] *)
Definition orRespond {A} (m : Handler (outcome A)) (code : Z) (msg : string)
    : Handler A :=
  let* o := m in
  match o with
  | Ok a => ret a
  | Fail err => respondWithError code msg (Some err) ;; return_
  end.

Definition ofError (e : option error) : outcome unit :=
  match e with None => Ok tt | Some err => Fail err end.

(** ** The stateful collaborators *)

Section Pipeline.

Variable cfg : apiConfig.
Variable K : Collaborators.
Variable env : Env.

(** Modelled from the spec: the record store is declared outside the
    modelled files; [fetch(id)] gives the record or fails, [update(record)]
    replaces the stored record or fails. *)
Definition GetVideo (id : uuid) : Handler (outcome Video) :=
  λ s, Next (match db s !! id with
             | Some v => Ok v
             | None => Fail (External "sql: no rows in result set")
             end)
            (record (EvGetVideo id) s).

Definition UpdateVideo (v : Video) : Handler (outcome unit) :=
  λ s, match updateVideoError env with
       | Some err => Next (Fail err) (record (EvUpdateVideo v) s)
       | None =>
           Next (Ok tt) (record (EvUpdateVideo v) (setDb (<[ID v := v]> (db s)) s))
       end.

(** [r.ParseMultipartForm(maxMemory)]: [maxMemory] bounds what is kept in
    memory, not what is accepted. *)
Definition ParseMultipartForm (r : Request) (maxMemory : Z)
    : Handler (outcome unit) :=
  λ s, Next (match MultipartForm r with
             | Ok _ => Ok tt
             | Fail err => Fail err
             end)
            (record EvParseMultipartForm s).

(** The first file part of the form under [field]. *)
Definition formPart (r : Request) (field : string) : outcome Part :=
  match MultipartForm r with
  | Ok parts =>
      match list_find (λ p, p.1 = field) parts with
      | Some (_, (_, part)) => Ok part
      | None => Fail (External "http: no such file")
      end
  | Fail err => Fail err
  end.

(** [r.FormFile(field)]; [limit] is the bound of the [http.MaxBytesReader]
    around the body, when there is one.  Over the bound the multipart
    reader fails with the reader's error, wrapped at the point where it
    stopped; the text below is the one for a stop between two parts. *)
Definition FormFile (r : Request) (limit : option Z) (field : string)
    : Handler (outcome Part) :=
  λ s, Next (match limit with
             | Some n =>
                 if n <? ContentLength r
                 then Fail (External
                        "multipart: NextPart: http: request body too large")
                 else formPart r field
             | None => formPart r field
             end)
            (record (EvFormFile field) s).

(** [os.Create(path)]: the file exists and is empty afterwards. *)
Definition os_Create (path : string) : Handler (outcome string) :=
  λ s, match createError env with
       | Some err => Next (Fail err) (record (EvCreate path) s)
       | None =>
           Next (Ok path)
                (record (EvCreate path) (setDisk (<[path := EmptyString]> (disk s)) s))
       end.

(** [os.CreateTemp] in the default directory, pattern ["tubely-upload.mp4"]. *)
Definition os_CreateTemp : Handler (outcome string) :=
  λ s, match createTemp env with
       | Fail err => Next (Fail err) s
       | Ok name =>
           Next (Ok name)
                (record (EvCreateTemp name) (setDisk (<[name := EmptyString]> (disk s)) s))
       end.

(** [io.Copy(dst, src)]: all of [src] on success; a failed copy is taken to
    have written nothing. *)
Definition io_Copy (dst : string) (src : string) : Handler (outcome unit) :=
  λ s, match copyError env with
       | Some err => Next (Fail err) (record (EvCopy dst) s)
       | None =>
           Next (Ok tt)
                (record (EvCopy dst) (setDisk (<[dst := src]> (disk s)) s))
       end.

Definition Seek (name : string) : Handler (outcome unit) :=
  λ s, Next (ofError (seekError env)) (record (EvSeek name) s).

(** [os.Stat(path)], then [fileInfo.Size()] *)
Definition os_Stat (path : string) : Handler (outcome Z) :=
  λ s, Next (match disk s !! path with
             | Some bytes => Ok (Z.of_nat (String.length bytes))
             | None =>
                 Fail (External
                         ("stat " +:+ path +:+ ": no such file or directory"))
             end)
            (record (EvStat path) s).

Definition os_Open (path : string) : Handler (outcome string) :=
  λ s, Next (match openError env with
             | Some err => Fail err
             | None =>
                 match disk s !! path with
                 | Some bytes => Ok bytes
                 | None =>
                     Fail (External
                             ("open " +:+ path
                              +:+ ": no such file or directory"))
                 end
             end)
            (record (EvOpen path) s).

(** Running [ffprobe] on [filePath] (lines 166-192). *)
Definition probe (filePath : string) : Handler (outcome string) :=
  λ s, Next (getVideoAspectRatio (ffprobe env)) (record (EvProbe filePath) s).

(** [cmd.Run()] for [ffmpeg -i input ... output]. *)
Definition runFfmpeg (input output : string) : Handler (option error) :=
  λ s, Next (exitError (ffmpeg env))
            (record (EvRemux input output)
               (match written (ffmpeg env) with
                | Some bytes => setDisk (<[output := bytes]> (disk s)) s
                | None => s
                end)).

Definition PutObject (bucket key body contentType : string)
    : Handler (outcome unit) :=
  λ s, match putObjectError env with
       | Some err => Next (Fail err) (record (EvPutObject bucket key contentType) s)
       | None =>
           Next (Ok tt)
                (record (EvPutObject bucket key contentType)
                   (setObjects (<[(bucket, key) := (body, contentType)]> (objects s)) s))
       end.

(** ** The functions of the video handler file *)

Definition processVideoForFastStart (inputFilePath : string)
    : Handler (outcome string) :=
  let processedFilePath := inputFilePath +:+ ".processing" in
  let* err := runFfmpeg inputFilePath processedFilePath in
  match err with
  | Some err => ret (Fail (ErrProcessFailed (stderrText (ffmpeg env)) err))
  | None =>
      let* fileInfo := os_Stat processedFilePath in
      match fileInfo with
      | Fail err => ret (Fail (ErrStatFailed err))
      | Ok size =>
          if size =? 0 then ret (Fail ErrProcessedEmpty)
          else ret (Ok processedFilePath)
      end
  end.

Definition generatePresignedURL (bucket key : string) (expireTime : Z)
    : Handler (outcome string) :=
  λ s, Next (match PresignGetObject K bucket key expireTime with
             | Ok url => Ok url
             | Fail err => Fail (ErrPresign err)
             end)
            (record (EvPresign bucket key expireTime) s).

(** Returns the record and the error, as the source does. *)
Definition dbVideoToSignedVideo (video : Video) : Handler (Video * option error) :=
  match VideoURL video with
  | None => ret (video, None)
  | Some url =>
      match decodeVideoURL url with
      | Fail err => ret (video, Some err)
      | Ok (videoBucket, videoKey) =>
          let* presignedURL :=
            generatePresignedURL videoBucket videoKey (10 * Minute) in
          match presignedURL with
          | Fail err => ret (video, Some (ErrPresignVideo err))
          | Ok presignedURL => ret (setVideoURL (Some presignedURL) video, None)
          end
      end
  end.

Definition maxMemoryVideo : Z := Z.shiftl 10 30.

Definition handlerUploadVideo (r : Request) : Handler unit :=
  let* videoID :=
    orRespond (ret (uuid_Parse K (videoIDString r)))
      StatusBadRequest "Invalid ID" in
  let* token :=
    orRespond (ret (GetBearerToken K (Header r)))
      StatusUnauthorized "Couldn't find JWT" in
  let* userID :=
    orRespond (ret (ValidateJWT K token (jwtSecret cfg)))
      StatusUnauthorized "Couldn't validate JWT" in
  let* video :=
    orRespond (GetVideo videoID)
      StatusInternalServerError "Couldn't get video from database" in
  if negb (N.eqb (UserID video) userID) then
    respondWithError StatusUnauthorized "User is not the owner of the video" None ;;
    return_
  else
  let* videoFile :=
    orRespond (FormFile r (Some maxMemoryVideo) "video")
      StatusBadRequest "Couldn't parse video form" in
  defer (DeferClose "video") ;;
  let* parsed :=
    orRespond (ret (ParseMediaType K (ContentType videoFile)))
      StatusBadRequest "Couldn't parse media type" in
  let mediaType := parsed.1 in
  if negb (String.eqb mediaType "video/mp4") then
    respondWithError StatusBadRequest "Invalid media type" None ;;
    return_
  else
  let* tempFile :=
    orRespond os_CreateTemp
      StatusInternalServerError "Couldn't create temporary video file" in
  defer (DeferRemove tempFile) ;;
  defer (DeferClose tempFile) ;;
  orRespond (io_Copy tempFile (Data videoFile))
    StatusInternalServerError "Couldn't save video" ;;
  orRespond (Seek tempFile)
    StatusInternalServerError "Couldn't reset file pointer" ;;
  let* aspectRatio :=
    orRespond (probe tempFile)
      StatusInternalServerError "Couldn't get video aspect ratio" in
  let directory := directoryOf aspectRatio in
  let s3FileKey := getAssetPath K mediaType in
  let s3FileKey := filepath_Join K directory s3FileKey in
  let* processedFilePath :=
    orRespond (processVideoForFastStart tempFile)
      StatusInternalServerError "Couldn't process video for fast start" in
  defer (DeferRemove processedFilePath) ;;
  let* processedFile :=
    orRespond (os_Open processedFilePath)
      StatusInternalServerError "Couldn't open processed video file" in
  defer (DeferClose processedFilePath) ;;
  orRespond (PutObject (s3Bucket cfg) s3FileKey processedFile mediaType)
    StatusInternalServerError "Couldn't upload video to S3" ;;
  let s3VideoURL := encodeVideoURL (s3Bucket cfg) s3FileKey in
  let video := setVideoURL (Some s3VideoURL) video in
  orRespond (UpdateVideo video)
    StatusInternalServerError "Couldn't update video in database" ;;
  let* signed := dbVideoToSignedVideo video in
  match signed.2 with
  | Some err =>
      respondWithError StatusInternalServerError
        "Couldn't convert video to signed video" (Some err) ;;
      return_
  | None => respondWithJSON StatusOK signed.1
  end.

(** ** The thumbnail handler *)

Definition maxMemoryThumbnail : Z := Z.shiftl 10 20.

Definition handlerUploadThumbnail (r : Request) : Handler unit :=
  let* videoID :=
    orRespond (ret (uuid_Parse K (videoIDString r)))
      StatusBadRequest "Invalid ID" in
  let* token :=
    orRespond (ret (GetBearerToken K (Header r)))
      StatusUnauthorized "Couldn't find JWT" in
  let* userID :=
    orRespond (ret (ValidateJWT K token (jwtSecret cfg)))
      StatusUnauthorized "Couldn't validate JWT" in
  (* fmt.Println writes to the standard output, which is not modelled *)
  orRespond (ParseMultipartForm r maxMemoryThumbnail)
    StatusBadRequest "Couldn't parse form" ;;
  let* file :=
    orRespond (FormFile r None "thumbnail")
      StatusBadRequest "Couldn't get file" in
  defer (DeferClose "thumbnail") ;;
  let mediaType := ContentType file in
  if String.eqb mediaType EmptyString then
    respondWithError StatusBadRequest "Missing Content-Type for thumbnail" None ;;
    return_
  else
  if negb (String.eqb mediaType "image/jpeg")
     && negb (String.eqb mediaType "image/png") then
    respondWithError StatusBadRequest "Invalid file type" None ;;
    return_
  else
  let assetPath := getAssetPath K mediaType in
  let assetDiskPath := getAssetDiskPath K assetPath in
  let* dst :=
    orRespond (os_Create assetDiskPath)
      StatusInternalServerError "Couldn't create file on server" in
  defer (DeferClose dst) ;;
  orRespond (io_Copy dst (Data file))
    StatusInternalServerError "Couldn't save file" ;;
  let* video :=
    orRespond (GetVideo videoID)
      StatusInternalServerError "Couldn't get video from database" in
  if negb (N.eqb (UserID video) userID) then
    respondWithError StatusUnauthorized "User is not the owner of the video" None ;;
    return_
  else
  let thumbnailUrl := getAssetURL K assetPath in
  let video := setThumbnailURL (Some thumbnailUrl) video in
  let video := setUpdatedAt (now env) video in
  orRespond (UpdateVideo video)
    StatusInternalServerError "Couldn't update video in database" ;;
  respondWithJSON StatusOK video.

End Pipeline.

(** ** A concrete deployment, for running the model *)

Module Scenario.

Definition cfg : apiConfig := mkConfig "s3cr3t" "tubely-bucket".

Definition parseID (s : string) : outcome uuid :=
  if String.eqb s "7" then Ok 7%N
  else if String.eqb s "8" then Ok 8%N
  else Fail (External "invalid UUID length").

Definition bearer (h : list (string * string)) : outcome string :=
  match list_find (λ p, p.1 = "Authorization"%string) h with
  | Some (_, (_, token)) => Ok token
  | None => Fail (External "no auth header included in request")
  end.

Definition validate (token secret : string) : outcome uuid :=
  if String.eqb token "alice" then Ok 100%N
  else if String.eqb token "bob" then Ok 200%N
  else Fail (External "token is malformed").

(** The media type up to the first [;], without parameters. *)
Definition mediaTypeOf (v : string)
    : outcome (string * list (string * string)) :=
  match Split v ";"%char with
  | base :: _ =>
      if String.eqb base EmptyString then Fail (External "mime: no media type")
      else Ok (base, [])
  | [] => Fail (External "mime: no media type")
  end.

Definition assetPath (mediaType : string) : string :=
  if String.eqb mediaType "video/mp4" then "k3y.mp4"
  else if String.eqb mediaType "image/png" then "k3y.png"
  else if String.eqb mediaType "image/jpeg" then "k3y.jpg"
  else "k3y.bin".

Definition K : Collaborators :=
  mkCollaborators parseID bearer validate mediaTypeOf assetPath
    (λ p, "assets/" +:+ p)
    (λ p, "http://localhost:8091/assets/" +:+ p)
    (λ dir name, dir +:+ "/" +:+ name)
    (λ bucket key expires,
       Ok ("https://" +:+ bucket +:+ ".s3.amazonaws.com/" +:+ key
           +:+ "?X-Amz-Expires=600")).

(** Everything works: [ffprobe] reports 1920x1080, [ffmpeg] writes its
    output. *)
Definition fine : Env :=
  mkEnv 5000 None None (Ok "/tmp/tubely-upload.mp4-1") None
    (ProbeOutput (Ok [(1920, 1080)]))
    (mkRemuxRun None EmptyString (Some "MOOV-MDAT"))
    None None None.

(** [ffmpeg] exits successfully and leaves an empty output file. *)
Definition emptyOutput : Env :=
  mkEnv 5000 None None (Ok "/tmp/tubely-upload.mp4-1") None
    (ProbeOutput (Ok [(1920, 1080)]))
    (mkRemuxRun None EmptyString (Some EmptyString))
    None None None.

(** [ffmpeg] fails after it has written part of its output. *)
Definition remuxCrash : Env :=
  mkEnv 5000 None None (Ok "/tmp/tubely-upload.mp4-1") None
    (ProbeOutput (Ok [(1920, 1080)]))
    (mkRemuxRun (Some (External "exit status 1")) "moov atom not found"
       (Some "MO"))
    None None None.

(** The object store refuses the upload. *)
Definition putRefused : Env :=
  mkEnv 5000 None None (Ok "/tmp/tubely-upload.mp4-1") None
    (ProbeOutput (Ok [(1920, 1080)]))
    (mkRemuxRun None EmptyString (Some "MOOV-MDAT"))
    None (Some (External "AccessDenied")) None.

(** Record 7 belongs to user 100 (alice). *)
Definition video7 : Video := mkVideo 7%N 1000 None None 100%N.

Definition store : gmap uuid Video := {[ 7%N := video7 ]}.

Definition start : State := initial store ∅ ∅.

Definition upload (token : string) (field contentType : string) : Request :=
  mkRequest "7" [("Authorization"%string, token)] 4096
    (Ok [(field, mkPart contentType "BYTES")]).

End Scenario.

(** ** The classifier as the design document words it *)

(** The orientation of a [width] by [height] frame in exact arithmetic,
    for a positive height: within 1/20 of 9/16, that is
    [|16 width - 9 height| * 20 <= 16 height], then within 1/20 of 16/9,
    that is [|9 width - 16 height| * 20 <= 9 height], both bounds
    included. *)
Definition aspectBySpec (width height : Z) : string :=
  if Z.abs (16 * width - 9 * height) * 20 <=? 16 * height then "9:16"
  else if Z.abs (9 * width - 16 * height) * 20 <=? 9 * height then "16:9"
  else "other".

(** Whether the code gives the frame what [aspectBySpec] gives it. *)
Definition agreesAt (width height : Z) : bool :=
  match aspectRatioOf width height with
  | Ok aspectRatio => String.eqb aspectRatio (aspectBySpec width height)
  | Fail _ => false
  end.

(** All the frames of at most [n] by [n]. *)
Definition agreesUpTo (n : nat) : bool :=
  forallb (λ w, forallb (λ h, agreesAt (Z.of_nat w) (Z.of_nat h)) (seq 1 n))
    (seq 1 n).

(** ** More of the same files *)

(** The status codes written to the response, in order. *)
Fixpoint responsesIn (events : list Event) : list Z :=
  match events with
  | [] => []
  | EvRespond code :: rest => code :: responsesIn rest
  | _ :: rest => responsesIn rest
  end.

(** [followedBy a b events]: somewhere in [events], [a] comes with [b]
    right after it. *)
Inductive followedBy (a b : Event) : list Event → Prop :=
  | followed_here (rest : list Event) : followedBy a b (a :: b :: rest)
  | followed_later (e : Event) (rest : list Event) :
      followedBy a b rest → followedBy a b (e :: rest).

(** A float64 that is not above zero: a zero, a negative number or a NaN. *)
Definition notPositive (x : spec_float) : Prop :=
  match x with
  | S754_finite false _ _ | S754_infinity false => False
  | _ => True
  end.

(** ** The earlier revision of the video handler
    ([handler_upload_video.go]) *)

Module Earlier.

Section Handler.

Variable cfg : apiConfig.
Variable K : Collaborators.
Variable env : Env.

(** [cfg.getObjectURL(key)], declared outside the modelled files. *)
Variable getObjectURL : string → string.

(** What reading the open file [name] from its start gives: the body of
    the [s3.PutObjectInput]. *)
Definition contents (name : string) : Handler string :=
  λ s, Next (match disk s !! name with
             | Some bytes => bytes
             | None => EmptyString
             end) s.

Definition handlerUploadVideo (r : Request) : Handler unit :=
  let* videoID :=
    orRespond (ret (uuid_Parse K (videoIDString r)))
      StatusBadRequest "Invalid ID" in
  let* token :=
    orRespond (ret (GetBearerToken K (Header r)))
      StatusUnauthorized "Couldn't find JWT" in
  let* userID :=
    orRespond (ret (ValidateJWT K token (jwtSecret cfg)))
      StatusUnauthorized "Couldn't validate JWT" in
  let* video :=
    orRespond (GetVideo videoID)
      StatusInternalServerError "Couldn't get video from database" in
  if negb (N.eqb (UserID video) userID) then
    respondWithError StatusUnauthorized "User is not the owner of the video" None ;;
    return_
  else
  let* videoFile :=
    orRespond (FormFile r (Some maxMemoryVideo) "video")
      StatusBadRequest "Couldn't parse video form" in
  defer (DeferClose "video") ;;
  let* parsed :=
    orRespond (ret (ParseMediaType K (ContentType videoFile)))
      StatusBadRequest "Couldn't parse media type" in
  let mediaType := parsed.1 in
  if negb (String.eqb mediaType "video/mp4") then
    respondWithError StatusBadRequest "Invalid media type" None ;;
    return_
  else
  let* tempFile :=
    orRespond (os_CreateTemp env)
      StatusInternalServerError "Couldn't create temporary video file" in
  defer (DeferRemove tempFile) ;;
  defer (DeferClose tempFile) ;;
  orRespond (io_Copy env tempFile (Data videoFile))
    StatusInternalServerError "Couldn't save video" ;;
  orRespond (Seek env tempFile)
    StatusInternalServerError "Couldn't reset file pointer" ;;
  let s3FileKey := getAssetPath K mediaType in
  let* body := contents tempFile in
  orRespond (PutObject env (s3Bucket cfg) s3FileKey body mediaType)
    StatusInternalServerError "Couldn't upload video to S3" ;;
  let s3VideoURL := getObjectURL s3FileKey in
  let video := setVideoURL (Some s3VideoURL) video in
  orRespond (UpdateVideo env video)
    StatusInternalServerError "Couldn't update video in database" ;;
  respondWithJSON StatusOK video.

End Handler.

End Earlier.

(** ** More deployments, for running the model *)

Module Incidents.

(** A bucket name with a comma in it. *)
Definition commaCfg : apiConfig := mkConfig "s3cr3t" "tubely,bucket".

(** The record store refuses the update. *)
Definition updateRefused : Env :=
  mkEnv 5000 None None (Ok "/tmp/tubely-upload.mp4-1") None
    (ProbeOutput (Ok [(1920, 1080)]))
    (mkRemuxRun None EmptyString (Some "MOOV-MDAT"))
    None None (Some (External "database is locked")).

(** A body over the cap of the video handler. *)
Definition oversized : Request :=
  mkRequest "7" [("Authorization"%string, "alice"%string)]
    (maxMemoryVideo + 1)
    (Ok [("video"%string, mkPart "video/mp4" "BYTES")]).

(** A request without credentials. *)
Definition anonymous : Request :=
  mkRequest "7" [] 4096 (Ok [("video"%string, mkPart "video/mp4" "BYTES")]).

(** [ffprobe] reports a stream without height. *)
Definition zeroHeight : Env :=
  mkEnv 5000 None None (Ok "/tmp/tubely-upload.mp4-1") None
    (ProbeOutput (Ok [(1920, 0)]))
    (mkRemuxRun None EmptyString (Some "MOOV-MDAT"))
    None None None.

Definition objectURL (key : string) : string :=
  "https://tubely-bucket.s3.us-east-2.amazonaws.com/" +:+ key.

(** A disk that already holds a file of its own. *)
Definition busy : State :=
  initial Scenario.store {[ "assets/old.png"%string := "OLD"%string ]} ∅.

End Incidents.

(** * Properties *)

(** ** [Split], [Count] and [Contains] *)

Section SplitFacts.

Variable sep : ascii.

Lemma Split_nonempty s : Split s sep ≠ [].
Proof.
  destruct s as [|c rest]; simpl; [done|].
  destruct (Ascii.eqb c sep); [done|].
  destruct (Split rest sep); done.
Qed.

(** [Split] yields one segment more than there are separators. *)
Lemma Split_length s : length (Split s sep) = S (Count s sep).
Proof.
  induction s as [|c rest IH]; simpl; [done|].
  destruct (Ascii.eqb c sep); simpl; [by rewrite IH|].
  destruct (Split rest sep) as [|seg segs] eqn:E; simpl in *; [lia|done].
Qed.

Lemma Split_no_sep s : Count s sep = 0%nat → Split s sep = [s].
Proof.
  induction s as [|c rest IH]; simpl; [done|].
  destruct (Ascii.eqb c sep); [done|].
  intros H. by rewrite (IH H).
Qed.

Lemma Split_app s t :
  Count s sep = 0%nat →
  Split (s +:+ String sep t) sep = s :: Split t sep.
Proof.
  induction s as [|c rest IH]; simpl.
  - intros _. by rewrite Ascii.eqb_refl.
  - destruct (Ascii.eqb c sep); [done|].
    intros H. by rewrite (IH H).
Qed.

(** Joining the segments with the separator gives the string back. *)
Lemma Join_Split s : Join (Split s sep) (String sep EmptyString) = s.
Proof.
  induction s as [|c rest IH]; simpl; [done|].
  destruct (Ascii.eqb c sep) eqn:E.
  - apply Ascii.eqb_eq in E as ->.
    destruct (Split rest sep) as [|seg segs] eqn:E2.
    + by destruct (Split_nonempty rest).
    + simpl in *. by rewrite IH.
  - destruct (Split rest sep) as [|seg segs] eqn:E2.
    + by destruct (Split_nonempty rest).
    + destruct segs; simpl in *; by rewrite <- IH.
Qed.

Lemma Split_segments_no_sep s seg :
  seg ∈ Split s sep → Count seg sep = 0%nat.
Proof.
  revert seg. induction s as [|c rest IH]; simpl; intros seg.
  - intros ->%list_elem_of_singleton. done.
  - destruct (Ascii.eqb c sep) eqn:E.
    + intros [->|H]%elem_of_cons; [done|by apply IH].
    + destruct (Split rest sep) as [|x xs] eqn:E2.
      * intros ->%list_elem_of_singleton. simpl. by rewrite E.
      * intros [->|H]%elem_of_cons.
        -- simpl. rewrite E. apply IH. by left.
        -- apply IH. by right.
Qed.

Lemma Count_app s t : Count (s +:+ t) sep = (Count s sep + Count t sep)%nat.
Proof.
  induction s as [|c rest IH]; simpl; [done|].
  destruct (Ascii.eqb c sep); simpl; by rewrite IH.
Qed.

(** A string holds the separator exactly when [Count] is not zero. *)
Lemma Count_zero_iff s :
  Count s sep = 0%nat ↔ ¬ Contains s (String sep EmptyString).
Proof.
  split.
  - intros H (pre & post & ->).
    rewrite Count_app in H. simpl in H.
    rewrite Ascii.eqb_refl in H. lia.
  - induction s as [|c rest IH]; simpl; [done|].
    destruct (Ascii.eqb c sep) eqn:E.
    + apply Ascii.eqb_eq in E as ->.
      intros H. destruct H. by exists EmptyString, rest.
    + intros H. apply IH. intros (pre & post & ->).
      apply H. by exists (String c pre), post.
Qed.

End SplitFacts.

(** ** The reference codec *)

(** The round trip, by counting commas. *)
Lemma decode_encode_by_count (bucket key : string) :
  Count bucket comma = 0%nat →
  Count key comma = 0%nat →
  decodeVideoURL (encodeVideoURL bucket key) = Ok (bucket, key).
Proof.
  intros Hb Hk. unfold decodeVideoURL, encodeVideoURL.
  change ("," +:+ key) with (String comma key).
  rewrite Split_app by done.
  by rewrite Split_no_sep.
Qed.

(** C2.  For every bucket and every key that contain no comma, decoding
    the encoded composite reference returns the pair:
    [decode (encode bucket key) = (bucket, key)]. *)
Theorem decode_encode_roundtrip (bucket key : string) :
  ¬ Contains bucket "," →
  ¬ Contains key "," →
  decodeVideoURL (encodeVideoURL bucket key) = Ok (bucket, key).
Proof.
  intros Hb%Count_zero_iff Hk%Count_zero_iff.
  unfold decodeVideoURL, encodeVideoURL, comma.
  change ("," +:+ key) with (String "," key).
  rewrite Split_app by done.
  by rewrite Split_no_sep.
Qed.

Lemma no_comma_by_count s : Count s comma = 0%nat → ¬ Contains s ",".
Proof. apply Count_zero_iff. Qed.

Lemma decode_encode_roundtrip_witness :
  decodeVideoURL (encodeVideoURL "tubely-bucket" "landscape/k3y.mp4")
  = Ok ("tubely-bucket"%string, "landscape/k3y.mp4"%string).
Proof.
  apply decode_encode_roundtrip; apply no_comma_by_count; reflexivity.
Defined.

(** The shape of what [decodeVideoURL] accepts: exactly the strings with
    one comma. *)
Lemma decode_Ok_iff (url videoBucket videoKey : string) :
  decodeVideoURL url = Ok (videoBucket, videoKey) ↔
  url = encodeVideoURL videoBucket videoKey
  ∧ ¬ Contains videoBucket "," ∧ ¬ Contains videoKey ",".
Proof.
  split.
  - unfold decodeVideoURL.
    pose proof (Join_Split comma url) as HJ.
    pose proof (Split_segments_no_sep comma url) as HS.
    destruct (Split url comma) as [|b [|k [|x rest]]]; try done.
    intros [= -> ->]. split; [by rewrite <- HJ|].
    split; apply Count_zero_iff, HS; set_solver.
  - intros (-> & Hb & Hk).
    apply decode_encode_by_count; by apply Count_zero_iff.
Qed.

Lemma decode_Fail_iff (url : string) :
  decodeVideoURL url = Fail (ErrURLFormat url) ↔ Count url comma ≠ 1%nat.
Proof.
  unfold decodeVideoURL.
  pose proof (Split_length comma url) as HL.
  destruct (Split url comma) as [|b [|k [|x rest]]]; simpl in HL;
    split; try done; try lia.
Qed.

(** C3, as the code has it.  Decoding fails with a format error exactly
    when the stored string does not hold exactly one comma, that is when
    it splits into a number of segments other than two; a string with
    exactly one comma decodes to the pair around the comma, empty segments
    included. *)
Theorem decode_format_error_iff_not_one_comma (url : string) :
  (decodeVideoURL url = Fail (ErrURLFormat url) ↔
     length (Split url comma) ≠ 2%nat)
  ∧ (length (Split url comma) ≠ 2%nat ↔ Count url comma ≠ 1%nat)
  ∧ (Count url comma = 1%nat →
       ∃ videoBucket videoKey,
         decodeVideoURL url = Ok (videoBucket, videoKey)
         ∧ url = encodeVideoURL videoBucket videoKey).
Proof.
  pose proof (Split_length comma url) as HL.
  split; [|split].
  - rewrite decode_Fail_iff. lia.
  - lia.
  - intros H1. unfold decodeVideoURL.
    pose proof (Join_Split comma url) as HJ.
    destruct (Split url comma) as [|b [|k [|x rest]]]; simpl in HL; try lia.
    exists b, k. split; [done|]. by rewrite <- HJ.
Qed.

Lemma decode_format_error_iff_not_one_comma_witness :
  ∃ videoBucket videoKey,
    decodeVideoURL "tubely-bucket,portrait/k3y.mp4"
      = Ok (videoBucket, videoKey)
    ∧ "tubely-bucket,portrait/k3y.mp4"%string
      = encodeVideoURL videoBucket videoKey.
Proof.
  apply (decode_format_error_iff_not_one_comma
           "tubely-bucket,portrait/k3y.mp4").
  reflexivity.
Defined.

(** Counterexample for C3 as stated: the string [","] splits into two
    empty segments and is decoded, not rejected. *)
Lemma decode_lone_comma_accepted :
  length (Split "," comma) = 2%nat
  ∧ decodeVideoURL "," = Ok (EmptyString, EmptyString)
  ∧ ¬ (∃ err, decodeVideoURL "," = Fail err).
Proof.
  repeat split. intros [err H]. discriminate H.
Qed.

(** ** float64: the conversion of a non-zero integer is not zero *)

Section Rounding.

Lemma digits2_pos_succ m :
  Zpos (digits2_pos m) <= Zpos (digits2_pos (Pos.succ m)).
Proof. induction m; simpl; lia. Qed.

Lemma shr_record_of_loc_m m l : shr_m (shr_record_of_loc m l) = m.
Proof. by destruct l as [|[]]. Qed.

Lemma shr_1_digits mrs :
  0 <= shr_m mrs →
  0 <= shr_m (shr_1 mrs)
  ∧ Zdigits2 (shr_m (shr_1 mrs)) = Z.max 0 (Zdigits2 (shr_m mrs) - 1).
Proof.
  destruct mrs as [m r s]. simpl.
  destruct m as [|p|p]; [simpl; lia| |lia].
  intros _. destruct p; simpl; lia.
Qed.

Lemma iter_shr_1_digits p : ∀ mrs,
  0 <= shr_m mrs →
  0 <= shr_m (SpecFloat.iter_pos shr_1 p mrs)
  ∧ Zdigits2 (shr_m (SpecFloat.iter_pos shr_1 p mrs))
    = Z.max 0 (Zdigits2 (shr_m mrs) - Zpos p).
Proof.
  induction p as [p IH|p IH|]; intros mrs H; simpl.
  - destruct (shr_1_digits mrs H) as [H1 E1].
    destruct (IH _ H1) as [H2 E2].
    destruct (IH _ H2) as [H3 E3].
    split; [done|]. rewrite E3, E2, E1. lia.
  - destruct (IH _ H) as [H2 E2].
    destruct (IH _ H2) as [H3 E3].
    split; [done|]. rewrite E3, E2. lia.
  - by apply shr_1_digits.
Qed.

Lemma Zdigits2_pos_inv z : 0 <= z → 0 < Zdigits2 z → ∃ m, z = Zpos m.
Proof. destruct z; simpl; try lia. eauto. Qed.

(** Shifting a positive mantissa to its format exponent keeps it positive
    as long as the number lies above the smallest exponent. *)
Lemma shr_fexp_positive m e l :
  emin Float64.prec Float64.emax < Zpos (digits2_pos m) + e →
  ∃ mrs m' e',
    shr_fexp Float64.prec Float64.emax (Zpos m) e l = (mrs, e')
    ∧ shr_m mrs = Zpos m'
    ∧ Zpos (digits2_pos m') + e' = Zpos (digits2_pos m) + e.
Proof.
  intros HD. unfold shr_fexp, shr. simpl Zdigits2.
  set (D := Zpos (digits2_pos m) + e) in *.
  assert (fexp Float64.prec Float64.emax D < D) as Hf.
  { unfold fexp, emin, Float64.prec, Float64.emax in *. lia. }
  destruct (fexp Float64.prec Float64.emax D - e) as [|p|p] eqn:En.
  - exists (shr_record_of_loc (Zpos m) l), m, e.
    by rewrite shr_record_of_loc_m.
  - destruct (iter_shr_1_digits p (shr_record_of_loc (Zpos m) l)) as [H0 Hd].
    { by rewrite shr_record_of_loc_m. }
    rewrite shr_record_of_loc_m in Hd. simpl Zdigits2 in Hd.
    destruct (Zdigits2_pos_inv _ H0) as [m' Hm']; [lia|].
    eexists _, m', _. split; [done|]. split; [done|].
    rewrite Hm' in Hd. simpl in Hd. lia.
  - exists (shr_record_of_loc (Zpos m) l), m, e.
    by rewrite shr_record_of_loc_m.
Qed.

Lemma round_nearest_even_positive m l :
  ∃ m', round_nearest_even (Zpos m) l = Zpos m'
        ∧ Zpos (digits2_pos m) <= Zpos (digits2_pos m').
Proof.
  pose proof (digits2_pos_succ m) as Hs.
  assert (Zpos m + 1 = Zpos (Pos.succ m)) as E by lia.
  destruct l as [|[]]; cbn [round_nearest_even].
  - exists m. lia.
  - destruct (Z.even (Zpos m)).
    + exists m. lia.
    + exists (Pos.succ m). lia.
  - exists m. lia.
  - exists (Pos.succ m). lia.
Qed.

(** Rounding a positive mantissa never gives a zero or a NaN. *)
Lemma binary_round_aux_nonzero sx m e l :
  emin Float64.prec Float64.emax < Zpos (digits2_pos m) + e →
  (∃ m' e', binary_round_aux Float64.prec Float64.emax sx (Zpos m) e l = S754_finite sx m' e')
  ∨ binary_round_aux Float64.prec Float64.emax sx (Zpos m) e l = S754_infinity sx.
Proof.
  intros HD. unfold binary_round_aux.
  destruct (shr_fexp_positive m e l HD) as (mrs1 & m1 & e1 & -> & Hm1 & Hd1).
  rewrite Hm1.
  destruct (round_nearest_even_positive m1 (loc_of_shr_record mrs1))
    as (m2 & -> & Hd2).
  destruct (shr_fexp_positive m2 e1 loc_Exact) as (mrs3 & m3 & e3 & -> & -> & _).
  { lia. }
  destruct (e3 <=? Float64.emax - Float64.prec); eauto.
Qed.

Lemma binary_round_nonzero sx m :
  (∃ m' e', binary_round Float64.prec Float64.emax sx m 0 = S754_finite sx m' e')
  ∨ binary_round Float64.prec Float64.emax sx m 0 = S754_infinity sx.
Proof.
  unfold binary_round, shl_align.
  destruct (fexp Float64.prec Float64.emax (Zpos (digits2_pos m) + 0) - 0) as [|p|p] eqn:E;
    apply binary_round_aux_nonzero.
  - unfold emin, Float64.prec, Float64.emax. lia.
  - unfold emin, Float64.prec, Float64.emax. lia.
  - unfold fexp, emin, Float64.prec, Float64.emax in *. lia.
Qed.

(** [float64(n) == 0] exactly when [n == 0]. *)
Lemma of_int_eqb_zero n :
  Float64.eqb (Float64.of_int n) Float64.zero = (n =? 0).
Proof.
  unfold Float64.of_int, binary_normalize.
  destruct n as [|m|m]; [done| |].
  - destruct (binary_round_nonzero false m) as [(m' & e' & ->)| ->]; done.
  - destruct (binary_round_nonzero true m) as [(m' & e' & ->)| ->]; done.
Qed.

End Rounding.

(** ** The aspect classifier *)

(** The three constants, as binary64 numbers: 9/16 is exact, 16/9 and 0.05
    are the nearest binary64. *)
Lemma aspect_constants :
  verticalAspectRatio = S754_finite false 5066549580791808 (-53)
  ∧ horizontalAspectRatio = S754_finite false 8006399337547548 (-52)
  ∧ aspectRatioTolerance = S754_finite false 7205759403792794 (-57)
  ∧ 5066549580791808 * 16 = 9 * 2 ^ 53
  ∧ 8006399337547548 * 9 < 16 * 2 ^ 52 < 8006399337547549 * 9
  ∧ 7205759403792793 * 20 < 2 ^ 57 < 7205759403792794 * 20.
Proof. vm_compute. repeat split; congruence. Qed.

(** The two tolerance bands do not meet: the order of the two tests does
    not matter. *)
Lemma tolerance_bands_apart :
  SFltb (Float64.add verticalAspectRatio aspectRatioTolerance)
        (Float64.sub horizontalAspectRatio aspectRatioTolerance) = true.
Proof. reflexivity. Qed.

(** The four band edges as the code computes them, in float64. *)
Lemma band_edges :
  Float64.sub verticalAspectRatio aspectRatioTolerance
    = S754_finite false 4616189618054758 (-53)
  ∧ Float64.add verticalAspectRatio aspectRatioTolerance
    = S754_finite false 5516909543528858 (-53)
  ∧ Float64.sub horizontalAspectRatio aspectRatioTolerance
    = S754_finite false 7781219356179023 (-52)
  ∧ Float64.add horizontalAspectRatio aspectRatioTolerance
    = S754_finite false 8231579318916073 (-52).
Proof. repeat split; vm_compute; reflexivity. Qed.

(** On small frames the code and the exact reading give the same
    orientation, the frames on a band edge included. *)
Lemma agrees_on_small_frames : agreesUpTo 128 = true.
Proof. vm_compute. reflexivity. Qed.

Lemma agreesUpTo_correct (n : nat) (width height : Z) :
  agreesUpTo n = true →
  1 <= width <= Z.of_nat n →
  1 <= height <= Z.of_nat n →
  aspectRatioOf width height = Ok (aspectBySpec width height).
Proof.
  intros Hall Hw Hh. unfold agreesUpTo in Hall.
  assert (agreesAt width height = true) as Hagree.
  { pose proof (proj1 (forallb_forall _ _) Hall (Z.to_nat width)) as Hrow.
    cbv beta in Hrow.
    assert (In (Z.to_nat width) (seq 1 n)) as Hin by (apply in_seq; lia).
    specialize (Hrow Hin).
    pose proof (proj1 (forallb_forall _ _) Hrow (Z.to_nat height)) as Hcell.
    cbv beta in Hcell.
    assert (In (Z.to_nat height) (seq 1 n)) as Hin' by (apply in_seq; lia).
    specialize (Hcell Hin').
    by rewrite !Z2Nat.id in Hcell by lia. }
  unfold agreesAt in Hagree.
  destruct (aspectRatioOf width height) as [a|]; [|done].
  by apply String.eqb_eq in Hagree as ->.
Qed.

(** C4.  The classifier fails exactly when the height is 0.  Otherwise it
    computes [ratio = width / height] and returns portrait (["9:16"]) when
    the ratio is within 0.05 of 9/16, landscape (["16:9"]) when it is
    within 0.05 of 16/9, and other otherwise; ratio 0.5625 gives portrait,
    ratio 1.7778 gives landscape and ratio 1.0 gives other.

    The statement fixes the numbers.  The three constants are 9/16
    exactly and the float64 nearest to 16/9 and to 1/20; the four band
    edges are the float64 written out below, each within one unit in the
    last place of 41/80, 49/80, 311/180 and 329/180; the classifier is the
    comparison of the correctly rounded quotient with these edges, both
    ends included; frames on and next to each edge are classified as the
    exact bounds say; and on every frame of at most 128 by 128 the result
    is the one of the exact reading [aspectBySpec]. *)
Theorem aspect_classifier (Width Height : Z) :
  let ratio := Float64.div (Float64.of_int Width) (Float64.of_int Height) in
  aspectRatioOf Width Height
  = (if Height =? 0 then Fail ErrHeightZero
     else if withinTolerance ratio verticalAspectRatio then Ok "9:16"%string
     else if withinTolerance ratio horizontalAspectRatio then Ok "16:9"%string
     else Ok "other"%string)
  ∧ withinTolerance ratio verticalAspectRatio
    = Float64.leb (Float64.sub verticalAspectRatio aspectRatioTolerance) ratio
      && Float64.leb ratio (Float64.add verticalAspectRatio aspectRatioTolerance)
  ∧ withinTolerance ratio horizontalAspectRatio
    = Float64.leb (Float64.sub horizontalAspectRatio aspectRatioTolerance) ratio
      && Float64.leb ratio (Float64.add horizontalAspectRatio aspectRatioTolerance)
  ∧ directoryOf "9:16" = "portrait"%string
  ∧ directoryOf "16:9" = "landscape"%string
  ∧ directoryOf "other" = "other"%string
  ∧ aspectRatioOf 5625 10000 = Ok "9:16"%string
  ∧ aspectRatioOf 17778 10000 = Ok "16:9"%string
  ∧ aspectRatioOf 10 10 = Ok "other"%string
  ∧ aspectRatioOf Width 0 = Fail ErrHeightZero
  (* the constants *)
  ∧ verticalAspectRatio = S754_finite false 5066549580791808 (-53)
  ∧ 5066549580791808 * 16 = 9 * 2 ^ 53
  ∧ horizontalAspectRatio = S754_finite false 8006399337547548 (-52)
  ∧ 8006399337547548 * 9 < 16 * 2 ^ 52 < 8006399337547549 * 9
  ∧ aspectRatioTolerance = S754_finite false 7205759403792794 (-57)
  ∧ 7205759403792793 * 20 < 2 ^ 57 < 7205759403792794 * 20
  (* the classifier on the Standard Library's binary64, edges written out *)
  ∧ aspectRatioOf Width Height
    = (let quotient :=
         SFdiv 53 1024 (binary_normalize 53 1024 Width 0 false)
           (binary_normalize 53 1024 Height 0 false) in
       if Height =? 0 then Fail ErrHeightZero
       else if SFleb (S754_finite false 4616189618054758 (-53)) quotient
               && SFleb quotient (S754_finite false 5516909543528858 (-53))
       then Ok "9:16"%string
       else if SFleb (S754_finite false 7781219356179023 (-52)) quotient
               && SFleb quotient (S754_finite false 8231579318916073 (-52))
       then Ok "16:9"%string
       else Ok "other"%string)
  (* the edges against 9/16 -+ 1/20 and 16/9 -+ 1/20 *)
  ∧ Z.abs (4616189618054758 * 80 - 41 * 2 ^ 53) < 80
  ∧ Z.abs (5516909543528858 * 80 - 49 * 2 ^ 53) < 80
  ∧ Z.abs (7781219356179023 * 180 - 311 * 2 ^ 52) < 180
  ∧ Z.abs (8231579318916073 * 180 - 329 * 2 ^ 52) < 180
  (* frames on and next to the edges of the portrait band *)
  ∧ aspectRatioOf 4099 8000 = Ok "other"%string
  ∧ aspectRatioOf 4100 8000 = Ok "9:16"%string
  ∧ aspectRatioOf 41 80 = Ok "9:16"%string
  ∧ aspectRatioOf 49 80 = Ok "9:16"%string
  ∧ aspectRatioOf 4900 8000 = Ok "9:16"%string
  ∧ aspectRatioOf 4901 8000 = Ok "other"%string
  (* frames on and next to the edges of the landscape band *)
  ∧ aspectRatioOf 3109 1800 = Ok "other"%string
  ∧ aspectRatioOf 3110 1800 = Ok "16:9"%string
  ∧ aspectRatioOf 311 180 = Ok "16:9"%string
  ∧ aspectRatioOf 329 180 = Ok "16:9"%string
  ∧ aspectRatioOf 3290 1800 = Ok "16:9"%string
  ∧ aspectRatioOf 3291 1800 = Ok "other"%string
  (* the usual frames *)
  ∧ aspectRatioOf 1080 1920 = Ok "9:16"%string
  ∧ aspectRatioOf 1920 1080 = Ok "16:9"%string
  ∧ aspectRatioOf 3840 2160 = Ok "16:9"%string
  ∧ aspectRatioOf 640 480 = Ok "other"%string
  (* agreement with the exact reading on small frames *)
  ∧ (∀ w h, 1 <= w <= 128 → 1 <= h <= 128 →
       aspectRatioOf w h = Ok (aspectBySpec w h)).
Proof.
  intros ratio.
  destruct band_edges as (Elv & Ehv & Elh & Ehh).
  assert (aspectRatioOf Width Height
          = (if Height =? 0 then Fail ErrHeightZero
             else if withinTolerance ratio verticalAspectRatio
                  then Ok "9:16"%string
             else if withinTolerance ratio horizontalAspectRatio
                  then Ok "16:9"%string
             else Ok "other"%string)) as Hcode.
  { unfold aspectRatioOf. rewrite of_int_eqb_zero.
    destruct (Height =? 0); [done|]. fold ratio.
    by repeat destruct (withinTolerance _ _). }
  split; [exact Hcode|].
  do 2 (split;
        [unfold withinTolerance, Float64.geb, Float64.leb; reflexivity|]).
  do 7 (split; [vm_compute; reflexivity|]).
  do 3 (split; [vm_compute; reflexivity|]; split; [lia|]).
  split.
  { rewrite Hcode. cbv zeta.
    unfold withinTolerance, Float64.geb, Float64.leb.
    rewrite Elv, Ehv, Elh, Ehh. reflexivity. }
  do 4 (split; [lia|]).
  do 16 (split; [vm_compute; reflexivity|]).
  intros w h Hw Hh.
  by apply (agreesUpTo_correct 128 w h agrees_on_small_frames).
Qed.

(** The classifier on the usual frame sizes. *)
Lemma aspect_examples :
  aspectRatioOf 1080 1920 = Ok "9:16"%string
  ∧ aspectRatioOf 9 16 = Ok "9:16"%string
  ∧ aspectRatioOf 1920 1080 = Ok "16:9"%string
  ∧ aspectRatioOf 16 9 = Ok "16:9"%string
  ∧ aspectRatioOf 1280 720 = Ok "16:9"%string
  ∧ aspectRatioOf 640 480 = Ok "other"%string
  ∧ aspectRatioOf (-16) 9 = Ok "other"%string
  ∧ aspectRatioOf 41 80 = Ok "9:16"%string
  ∧ aspectRatioOf 49 80 = Ok "9:16"%string
  ∧ aspectRatioOf 40 80 = Ok "other"%string
  ∧ aspectRatioOf 50 80 = Ok "other"%string.
Proof. repeat split; vm_compute; reflexivity. Qed.

(** [getVideoAspectRatio] names its three other failures apart. *)
Lemma getVideoAspectRatio_failures (err : error) :
  getVideoAspectRatio (ProbeExit err) = Fail (ErrFfprobeFailed err)
  ∧ getVideoAspectRatio (ProbeOutput (Fail err)) = Fail (ErrFfprobeParse err)
  ∧ getVideoAspectRatio (ProbeOutput (Ok [])) = Fail ErrNoVideoStreams.
Proof. done. Qed.

(** ** Deferred calls *)

Lemma runDeferred_response ds : ∀ s, response (runDeferred ds s) = response s.
Proof.
  induction ds as [|[] ds IH]; intros s; simpl; [done|..]; by rewrite IH.
Qed.

Lemma runDeferred_db ds : ∀ s, db (runDeferred ds s) = db s.
Proof.
  induction ds as [|[] ds IH]; intros s; simpl; [done|..]; by rewrite IH.
Qed.

Lemma runDeferred_objects ds : ∀ s, objects (runDeferred ds s) = objects s.
Proof.
  induction ds as [|[] ds IH]; intros s; simpl; [done|..]; by rewrite IH.
Qed.

Lemma runDeferred_status ds s : status (runDeferred ds s) = status s.
Proof. unfold status. by rewrite runDeferred_response. Qed.

(** What [decodeVideoURL] gives on an encoded reference, when it gives
    anything, is the pair that was encoded. *)
Lemma decode_encode_inv (bucket key b k : string) :
  decodeVideoURL (encodeVideoURL bucket key) = Ok (b, k) →
  b = bucket ∧ k = key.
Proof.
  intros H. pose proof H as H'.
  apply decode_Ok_iff in H' as (E & Hb%Count_zero_iff & Hk%Count_zero_iff).
  apply (f_equal (λ u, Count u comma)) in E.
  unfold encodeVideoURL, comma in E, Hb, Hk.
  rewrite !Count_app in E. simpl in E. rewrite Hb, Hk in E.
  rewrite decode_encode_by_count in H by (unfold comma; lia).
  by injection H as -> ->.
Qed.

(** ** Running a handler symbolically *)

Ltac destruct_scrutinee :=
  match goal with
  | |- context [match ?x with _ => _ end] =>
      lazymatch x with
      | context [match _ with _ => _ end] => fail
      | _ => destruct x eqn:?
      end
  end.

Ltac run := cbn; repeat (destruct_scrutinee; cbn; try discriminate).

Ltac unfold_handlers :=
  unfold serve, handlerUploadVideo, handlerUploadThumbnail, orRespond,
    GetVideo, ParseMultipartForm, FormFile, os_Create, os_CreateTemp, io_Copy,
    Seek, probe, processVideoForFastStart, os_Open, PutObject, UpdateVideo,
    dbVideoToSignedVideo, generatePresignedURL, runFfmpeg, os_Stat,
    respondWithError, respondWithJSON, defer, modify, return_, bind, ret.

Ltac in_log :=
  repeat (apply elem_of_app;
          first [ right; apply list_elem_of_singleton; reflexivity | left ]).

Section HandlerFacts.

Variable cfg : apiConfig.
Variable K : Collaborators.
Variable env : Env.

(** ** The presign transform *)

(** [dbVideoToSignedVideo] changes nothing but the log, where it leaves at
    most the presign request, valid for ten minutes. *)
Lemma dbVideoToSignedVideo_pure (v : Video) (s : State) :
  ∃ res, dbVideoToSignedVideo K v s = Next res s
         ∨ ∃ b k, dbVideoToSignedVideo K v s
                  = Next res (record (EvPresign b k (10 * Minute)) s).
Proof.
  unfold dbVideoToSignedVideo, generatePresignedURL, bind, ret.
  destruct (VideoURL v); [|eauto].
  destruct (decodeVideoURL _) as [[b k]|]; [|eauto].
  destruct (PresignGetObject _ _ _ _); eauto 6.
Qed.

(** A record that holds no reference is returned as it is. *)
Lemma dbVideoToSignedVideo_nil (v : Video) (s : State) :
  VideoURL v = None → dbVideoToSignedVideo K v s = Next (v, None) s.
Proof. unfold dbVideoToSignedVideo. by intros ->. Qed.

(** ** The video handler *)

(** C7.  A video upload by a non-owner (valid credential, record found) is
    answered with the authorization error right after the record is
    fetched: the multipart body is not read, no temporary file is created,
    and the disk, the record store and the object store are as before. *)
Theorem video_non_owner_rejected_before_staging
    (r : Request) (s : State) (videoID userID : uuid) (token : string)
    (video : Video) :
  uuid_Parse K (videoIDString r) = Ok videoID →
  GetBearerToken K (Header r) = Ok token →
  ValidateJWT K token (jwtSecret cfg) = Ok userID →
  db s !! videoID = Some video →
  UserID video ≠ userID →
  let s' := serve (handlerUploadVideo cfg K env r) s in
  response s'
    = Some (mkResponse StatusUnauthorized
              (ErrorBody "User is not the owner of the video" None))
  ∧ log s' = log s ++ [EvGetVideo videoID; EvRespond StatusUnauthorized]
  ∧ disk s' = disk s ∧ db s' = db s ∧ objects s' = objects s.
Proof.
  intros Hid Htok Hjwt Hdb Hne s'. subst s'.
  unfold_handlers.
  rewrite Hid. cbn. rewrite Htok. cbn. rewrite Hjwt; cbn. rewrite Hdb. cbn.
  destruct (N.eqb_spec (UserID video) userID) as [|_]; [done|].
  cbn. repeat split. by rewrite <- app_assoc.
Qed.

(** On every run of the video handler, the multipart body is read, and a
    temporary file created, only after the record was fetched and found to
    belong to the caller. *)
Lemma video_body_read_only_for_owner (r : Request) (s : State) :
  ∃ events,
    log (serve (handlerUploadVideo cfg K env r) s) = log s ++ events
    ∧ ∀ e, e ∈ events →
        (∃ field, e = EvFormFile field) ∨ (∃ name, e = EvCreateTemp name) →
        ∃ videoID token video before after,
          uuid_Parse K (videoIDString r) = Ok videoID
          ∧ GetBearerToken K (Header r) = Ok token
          ∧ ValidateJWT K token (jwtSecret cfg) = Ok (UserID video)
          ∧ db s !! videoID = Some video
          ∧ events = before ++ e :: after
          ∧ EvGetVideo videoID ∈ before.
Proof.
  unfold_handlers. run.
  all: rewrite <- ?app_assoc; eexists; split; [reflexivity|].
  all: intros ev Hin He; simpl in Hin.
  all: repeat match goal with
       | H : negb (N.eqb _ _) = false |- _ =>
           apply negb_false_iff, N.eqb_eq in H; subst
       end.
  all: repeat (apply elem_of_cons in Hin as [->|Hin];
               [try (by destruct He as [[? ?]|[? ?]])|]).
  all: try by apply elem_of_nil in Hin.
  all: first
         [ eexists _, _, _, [_], _;
           split; [reflexivity|]; split; [reflexivity|];
           split; [eassumption|]; split; [eassumption|];
           split; [reflexivity|]; apply list_elem_of_singleton; reflexivity
         | eexists _, _, _, [_; _], _;
           split; [reflexivity|]; split; [reflexivity|];
           split; [eassumption|]; split; [eassumption|];
           split; [reflexivity|]; apply elem_of_cons; by left ].
Qed.

(** Both handlers answer every request. *)
Lemma handlers_always_respond (r : Request) (s : State) :
  (∃ resp, response (serve (handlerUploadThumbnail cfg K env r) s) = Some resp)
  ∧ (∃ resp, response (serve (handlerUploadVideo cfg K env r) s) = Some resp).
Proof.
  split; unfold serve; rewrite runDeferred_response; unfold_handlers; run;
    eauto.
Qed.

(** C5.  When a video upload succeeds, the record store holds the record
    with [VideoURL] set to the encoded reference ["<bucket>,<key>"]; the
    record in the response is that record with [VideoURL] replaced by the
    URL presigned for that bucket and key with an expiry of ten minutes;
    and the presign transform leaves the record store as it finds it. *)
Theorem video_upload_success (r : Request) (s : State) (body : Payload) :
  let s' := serve (handlerUploadVideo cfg K env r) s in
  response s' = Some (mkResponse StatusOK body) →
  (∃ videoID video aspectRatio url,
    uuid_Parse K (videoIDString r) = Ok videoID
    ∧ db s !! videoID = Some video
    ∧ getVideoAspectRatio (ffprobe env) = Ok aspectRatio
    ∧ let key := filepath_Join K (directoryOf aspectRatio)
                   (getAssetPath K "video/mp4") in
      let reference := encodeVideoURL (s3Bucket cfg) key in
      db s' = <[ID video := setVideoURL (Some reference) video]> (db s)
      ∧ PresignGetObject K (s3Bucket cfg) key (10 * Minute) = Ok url
      ∧ EvPresign (s3Bucket cfg) key (10 * Minute) ∈ log s'
      ∧ body = VideoBody (setVideoURL (Some url) video))
  ∧ (∀ v st, db (finalState (dbVideoToSignedVideo K v st)) = db st).
Proof.
  intros s'. subst s'. intros H. split.
  2: { intros v st.
       by destruct (dbVideoToSignedVideo_pure v st) as [res [->|(b & k & ->)]]. }
  revert H. unfold serve. rewrite runDeferred_response, runDeferred_db.
  unfold_handlers. run.
  all: intros [= <-].
  all: repeat match goal with
       | H : negb (String.eqb _ "video/mp4") = false |- _ =>
           apply negb_false_iff, String.eqb_eq in H; rewrite H in *
       | H : decodeVideoURL (encodeVideoURL _ _) = Ok _ |- _ =>
           apply decode_encode_inv in H as [-> ->]
       end.
  all: eexists _, _, _, _; repeat split; try eassumption; try done.
  all: in_log.
Qed.

(** ** Content types *)

(** C10.  The thumbnail handler accepts a part exactly when its raw
    [Content-Type] is ["image/jpeg"] or ["image/png"]: any other string,
    parameters included, is answered with a bad-request error and nothing
    is written.  The video handler parses the header first: a header whose
    parsed media type is ["video/mp4"] is accepted whatever its
    parameters. *)
Theorem content_type_checks :
  (∀ (r : Request) (s : State) videoID token userID file,
     uuid_Parse K (videoIDString r) = Ok videoID →
     GetBearerToken K (Header r) = Ok token →
     ValidateJWT K token (jwtSecret cfg) = Ok userID →
     formPart r "thumbnail" = Ok file →
     let s' := serve (handlerUploadThumbnail cfg K env r) s in
     let mediaType := ContentType file in
     (mediaType = "image/jpeg" ∨ mediaType = "image/png" →
        status s' ≠ Some StatusBadRequest
        ∧ EvCreate (getAssetDiskPath K (getAssetPath K mediaType)) ∈ log s')
     ∧ (¬ (mediaType = "image/jpeg" ∨ mediaType = "image/png") →
        (∃ msg, response s'
                = Some (mkResponse StatusBadRequest (ErrorBody msg None)))
        ∧ disk s' = disk s ∧ db s' = db s))
  ∧ (∀ (r : Request) (s : State) videoID token video file params,
     uuid_Parse K (videoIDString r) = Ok videoID →
     GetBearerToken K (Header r) = Ok token →
     ValidateJWT K token (jwtSecret cfg) = Ok (UserID video) →
     db s !! videoID = Some video →
     ContentLength r <= maxMemoryVideo →
     formPart r "video" = Ok file →
     ParseMediaType K (ContentType file) = Ok ("video/mp4"%string, params) →
     let s' := serve (handlerUploadVideo cfg K env r) s in
     status s' ≠ Some StatusBadRequest
     ∧ ∀ name, createTemp env = Ok name → EvCreateTemp name ∈ log s').
Proof.
  split.
  - intros r s videoID token userID file Hid Htok Hjwt Hfile s' mediaType.
    subst s' mediaType.
    assert (∃ parts, MultipartForm r = Ok parts) as [parts Hparts].
    { unfold formPart in Hfile. destruct (MultipartForm r); [eauto|done]. }
    split.
    + intros Hct. unfold status, serve.
      rewrite runDeferred_response.
      unfold_handlers.
      rewrite Hid. cbn. rewrite Htok. cbn. rewrite Hjwt. cbn.
      rewrite Hparts. cbn. rewrite Hfile. cbn.
      destruct Hct as [-> | ->]; cbn.
      all: split; [by run|].
      all: run; in_log.
    + intros Hct. unfold serve.
      rewrite runDeferred_response, runDeferred_db.
      unfold_handlers.
      rewrite Hid. cbn. rewrite Htok. cbn. rewrite Hjwt. cbn.
      rewrite Hparts. cbn. rewrite Hfile. cbn.
      destruct (String.eqb_spec (ContentType file) EmptyString) as [E|E]; cbn.
      { eauto. }
      destruct (String.eqb_spec (ContentType file) "image/jpeg") as [E1|E1];
        [tauto|].
      destruct (String.eqb_spec (ContentType file) "image/png") as [E2|E2];
        [tauto|].
      cbn. eauto.
  - intros r s videoID token video file params Hid Htok Hjwt Hdb Hlen Hfile
      Hmedia s'. subst s'.
    apply Z.ltb_ge in Hlen.
    unfold status, serve. rewrite runDeferred_response.
    unfold_handlers.
    rewrite Hid. cbn. rewrite Htok. cbn. rewrite Hjwt. cbn. rewrite Hdb. cbn.
    rewrite N.eqb_refl. cbn. rewrite Hlen, Hfile. cbn.
    rewrite Hmedia. cbn.
    split; [by run|].
    intros name ->. run; in_log.
Qed.

(** ** The container remuxer *)

(** The three failures of the remuxer render to different messages,
    whatever the process printed and whatever the causes are. *)
Lemma remux_failures_distinct (stderr : string) (c c' : error) :
  Error (ErrProcessFailed stderr c) ≠ Error (ErrStatFailed c')
  ∧ Error (ErrProcessFailed stderr c) ≠ Error ErrProcessedEmpty
  ∧ Error (ErrStatFailed c') ≠ Error ErrProcessedEmpty.
Proof. repeat split; simpl; discriminate. Qed.

(** They also differ from the messages of the prober and of the presign
    service. *)
Lemma remux_failures_apart (e e' c : error) (url : string) :
  e = ErrProcessFailed (stderrText (ffmpeg env)) c
  ∨ e = ErrStatFailed c ∨ e = ErrProcessedEmpty →
  e' = ErrFfprobeFailed c ∨ e' = ErrFfprobeParse c ∨ e' = ErrNoVideoStreams
  ∨ e' = ErrHeightZero ∨ e' = ErrPresign c ∨ e' = ErrURLFormat url
  ∨ e' = ErrPresignVideo c →
  Error e ≠ Error e'.
Proof.
  intros [->|[->| ->]] [->|[->|[->|[->|[->|[->| ->]]]]]]; simpl; discriminate.
Qed.

Lemma Contains_stderr (stderr : string) (c : error) :
  Contains (Error (ErrProcessFailed stderr c)) stderr.
Proof. by exists "couldn't process video: "%string, (", " +:+ Error c). Qed.

(** [processVideoForFastStart], step by step. *)
Lemma processVideoForFastStart_run (inputFilePath : string) (s : State) :
  let processedFilePath := inputFilePath +:+ ".processing" in
  let s1 := record (EvRemux inputFilePath processedFilePath)
              (match written (ffmpeg env) with
               | Some bytes =>
                   setDisk (<[processedFilePath := bytes]> (disk s)) s
               | None => s
               end) in
  processVideoForFastStart env inputFilePath s
  = match exitError (ffmpeg env) with
    | Some err =>
        Next (Fail (ErrProcessFailed (stderrText (ffmpeg env)) err)) s1
    | None =>
        Next (match disk s1 !! processedFilePath with
              | None =>
                  Fail (ErrStatFailed
                          (External ("stat " +:+ processedFilePath
                                     +:+ ": no such file or directory")))
              | Some bytes =>
                  if Z.of_nat (String.length bytes) =? 0
                  then Fail ErrProcessedEmpty
                  else Ok processedFilePath
              end)
             (record (EvStat processedFilePath) s1)
    end.
Proof.
  intros out s1.
  unfold processVideoForFastStart, runFfmpeg, os_Stat, bind, ret.
  fold out. fold s1.
  destruct (exitError (ffmpeg env)); [done|].
  destruct (disk s1 !! out) as [bytes|]; [|done].
  by destruct (Z.of_nat (String.length bytes) =? 0).
Qed.

(** C8.  The remuxer returns its output path only when the process exited
    successfully, the output file exists and the output file is not empty;
    each violation has its own failure, and a failed process has the
    captured error stream in its message. *)
Theorem remuxer_postconditions (inputFilePath : string) (s : State) :
  let processedFilePath := inputFilePath +:+ ".processing" in
  ∃ res s',
    processVideoForFastStart env inputFilePath s = Next res s'
    ∧ ((∃ path, res = Ok path) ↔
         exitError (ffmpeg env) = None
         ∧ ∃ bytes, disk s' !! processedFilePath = Some bytes
                    ∧ bytes ≠ EmptyString)
    ∧ (∀ path, res = Ok path → path = processedFilePath)
    ∧ (∀ err, exitError (ffmpeg env) = Some err →
         res = Fail (ErrProcessFailed (stderrText (ffmpeg env)) err)
         ∧ Contains (Error (ErrProcessFailed (stderrText (ffmpeg env)) err))
             (stderrText (ffmpeg env)))
    ∧ (exitError (ffmpeg env) = None →
       disk s' !! processedFilePath = None →
         ∃ cause, res = Fail (ErrStatFailed cause))
    ∧ (exitError (ffmpeg env) = None →
       disk s' !! processedFilePath = Some EmptyString →
         res = Fail ErrProcessedEmpty)
    ∧ (∀ stderr c c',
         Error (ErrProcessFailed stderr c) ≠ Error (ErrStatFailed c')
         ∧ Error (ErrProcessFailed stderr c) ≠ Error ErrProcessedEmpty
         ∧ Error (ErrStatFailed c') ≠ Error ErrProcessedEmpty).
Proof.
  intros out.
  assert (∀ bytes : string,
            (Z.of_nat (String.length bytes) =? 0) = true ↔ bytes = EmptyString)
    as Hlen.
  { intros [|c rest]; simpl; split; done. }
  rewrite processVideoForFastStart_run. fold out.
  set (s1 := record (EvRemux inputFilePath out) _).
  destruct (exitError (ffmpeg env)) as [err|] eqn:Hexit.
  { eexists _, _. split; [done|].
    split; [split; [by intros [? ?]|by intros [? _]]|].
    split; [done|].
    split; [intros ? [= <-]; split; [done|apply Contains_stderr]|].
    split; [done|]. split; [done|]. apply remux_failures_distinct. }
  assert (disk (record (EvStat out) s1) = disk s1) as Hdisk by done.
  destruct (disk s1 !! out) as [bytes|] eqn:Hout.
  2: { eexists _, _. split; [done|]. rewrite Hdisk, Hout.
       split; [split; [by intros [? ?]|by intros (_ & ? & ? & _)]|].
       split; [done|]. split; [done|].
       split; [eauto|]. split; [done|]. apply remux_failures_distinct. }
  cbv beta iota.
  destruct (Z.of_nat (String.length bytes) =? 0) eqn:Hsize.
  - apply Hlen in Hsize as ->.
    eexists _, _. split; [done|]. rewrite Hdisk, Hout.
    split; [split; [by intros [? ?]|by intros (_ & ? & [= <-] & ?)]|].
    split; [done|]. split; [done|].
    split; [done|]. split; [done|]. apply remux_failures_distinct.
  - assert (bytes ≠ EmptyString) as Hne.
    { by intros ->. }
    eexists _, _. split; [done|]. rewrite Hdisk, Hout.
    split; [split; [eauto|eauto]|].
    split; [by intros ? [= <-]|]. split; [done|].
    split; [done|]. split; [by intros _ [= ->]|].
    apply remux_failures_distinct.
Qed.

(** ** The thumbnail handler *)

(** On the code, a thumbnail upload by a non-owner (valid credential,
    accepted content type, record found) is answered with the
    authorization error and the record store is left alone, but only after
    the file has been created and filled: it stays on the disk. *)
Lemma thumbnail_non_owner_after_store
    (r : Request) (s : State) (videoID userID : uuid) (token : string)
    (file : Part) (video : Video) :
  uuid_Parse K (videoIDString r) = Ok videoID →
  GetBearerToken K (Header r) = Ok token →
  ValidateJWT K token (jwtSecret cfg) = Ok userID →
  formPart r "thumbnail" = Ok file →
  ContentType file = "image/jpeg"%string ∨ ContentType file = "image/png"%string →
  createError env = None →
  copyError env = None →
  db s !! videoID = Some video →
  UserID video ≠ userID →
  let s' := serve (handlerUploadThumbnail cfg K env r) s in
  let assetDiskPath := getAssetDiskPath K (getAssetPath K (ContentType file)) in
  response s'
    = Some (mkResponse StatusUnauthorized
              (ErrorBody "User is not the owner of the video" None))
  ∧ disk s' !! assetDiskPath = Some (Data file)
  ∧ db s' = db s
  ∧ log s' = log s ++ [EvParseMultipartForm; EvFormFile "thumbnail";
                       EvCreate assetDiskPath; EvCopy assetDiskPath;
                       EvGetVideo videoID; EvRespond StatusUnauthorized;
                       EvClose assetDiskPath; EvClose "thumbnail"].
Proof.
  intros Hid Htok Hjwt Hfile Hct Hcreate Hcopy Hdb Hne s' path. subst s'.
  assert (∃ parts, MultipartForm r = Ok parts) as [parts Hparts].
  { unfold formPart in Hfile. destruct (MultipartForm r); [eauto|done]. }
  unfold_handlers.
  rewrite Hid. cbn. rewrite Htok. cbn. rewrite Hjwt. cbn.
  rewrite Hparts. cbn. rewrite Hfile. cbn.
  assert (String.eqb (ContentType file) EmptyString = false) as ->.
  { by destruct Hct as [-> | ->]. }
  assert (negb (ContentType file =? "image/jpeg")%string
          && negb (ContentType file =? "image/png")%string = false) as ->.
  { by destruct Hct as [-> | ->]. }
  fold path. rewrite Hcreate. cbn. rewrite Hcopy. cbn. rewrite Hdb. cbn.
  destruct (N.eqb_spec (UserID video) userID) as [|_]; [done|]. cbn.
  split; [done|]. split; [by rewrite lookup_insert_eq|]. split; [done|].
  by rewrite <- !app_assoc.
Qed.

(** The thumbnail handler stamps the record it hands to the record
    store. *)
Lemma thumbnail_update_sets_UpdatedAt (r : Request) (s : State) :
  ∃ events,
    log (serve (handlerUploadThumbnail cfg K env r) s) = log s ++ events
    ∧ ∀ v, EvUpdateVideo v ∈ events → UpdatedAt v = now env.
Proof.
  unfold_handlers. run.
  all: rewrite <- ?app_assoc; eexists; split; [reflexivity|].
  all: intros v' Hin; simpl in Hin.
  all: repeat (apply elem_of_cons in Hin as [Hin|Hin]; [try discriminate|]).
  all: try by apply elem_of_nil in Hin.
  all: by injection Hin as ->.
Qed.

(** ** What the video handler leaves behind *)

(** The video handler hands the record to the record
    store with the [UpdatedAt] it fetched: it never stamps it. *)
Lemma video_update_keeps_UpdatedAt (r : Request) (s : State) :
  ∃ events,
    log (serve (handlerUploadVideo cfg K env r) s) = log s ++ events
    ∧ ∀ v, EvUpdateVideo v ∈ events →
        ∃ videoID fetched,
          uuid_Parse K (videoIDString r) = Ok videoID
          ∧ db s !! videoID = Some fetched
          ∧ UpdatedAt v = UpdatedAt fetched.
Proof.
  unfold_handlers. run.
  all: rewrite <- ?app_assoc; eexists; split; [reflexivity|].
  all: intros v' Hin; simpl in Hin.
  all: repeat (apply elem_of_cons in Hin as [Hin|Hin]; [try discriminate|]).
  all: try by apply elem_of_nil in Hin.
  all: injection Hin as ->; eauto.
Qed.

Lemma append_not_self (a b : string) : b ≠ EmptyString → a ≠ a +:+ b.
Proof.
  intros Hb. induction a as [|c a IH]; simpl; [done|].
  intros [= E]. by apply IH.
Qed.

(** The staged file is gone after every call that created it. *)
Lemma video_staged_file_removed (r : Request) (s : State) :
  ∃ events,
    log (serve (handlerUploadVideo cfg K env r) s) = log s ++ events
    ∧ ∀ name, EvCreateTemp name ∈ events →
        disk (serve (handlerUploadVideo cfg K env r) s) !! name = None.
Proof.
  unfold_handlers. run.
  all: rewrite <- ?app_assoc; eexists; split; [reflexivity|].
  all: intros v' Hin; simpl in Hin.
  all: repeat (apply elem_of_cons in Hin as [Hin|Hin]; [try discriminate|]).
  all: try by apply elem_of_nil in Hin.
  all: injection Hin as ->.
  all: by rewrite lookup_delete_eq.
Qed.

(** Once the remuxer has succeeded, its output is gone after the call,
    whether the upload, the update or the signing fails or not. *)
Lemma video_remuxed_file_removed_after_success (r : Request) (s : State) :
  ∃ events,
    log (serve (handlerUploadVideo cfg K env r) s) = log s ++ events
    ∧ ∀ path, EvOpen path ∈ events →
        disk (serve (handlerUploadVideo cfg K env r) s) !! path = None.
Proof.
  unfold_handlers. run.
  all: rewrite <- ?app_assoc; eexists; split; [reflexivity|].
  all: intros v' Hin; simpl in Hin.
  all: repeat (apply elem_of_cons in Hin as [Hin|Hin]; [try discriminate|]).
  all: try by apply elem_of_nil in Hin.
  all: injection Hin as ->.
  all: rewrite lookup_delete_ne by (by apply append_not_self).
  all: by rewrite lookup_delete_eq.
Qed.

(** When the remuxer fails after its process has written
    an output file (a failed process, or an empty output), the handler
    answers with an internal error and the output file stays on the
    disk. *)
Lemma video_remux_failure_leaves_output
    (r : Request) (s : State) (videoID : uuid) (token : string)
    (video : Video) (file : Part) (params : list (string * string))
    (name aspectRatio bytes : string) :
  uuid_Parse K (videoIDString r) = Ok videoID →
  GetBearerToken K (Header r) = Ok token →
  ValidateJWT K token (jwtSecret cfg) = Ok (UserID video) →
  db s !! videoID = Some video →
  ContentLength r <= maxMemoryVideo →
  formPart r "video" = Ok file →
  ParseMediaType K (ContentType file) = Ok ("video/mp4"%string, params) →
  createTemp env = Ok name →
  copyError env = None →
  seekError env = None →
  getVideoAspectRatio (ffprobe env) = Ok aspectRatio →
  written (ffmpeg env) = Some bytes →
  (∃ err, exitError (ffmpeg env) = Some err) ∨ bytes = EmptyString →
  let s' := serve (handlerUploadVideo cfg K env r) s in
  status s' = Some StatusInternalServerError
  ∧ disk s' !! (name +:+ ".processing") = Some bytes
  ∧ disk s' !! name = None.
Proof.
  intros Hid Htok Hjwt Hdb Hlen Hfile Hmedia Htemp Hcopy Hseek Hprobe Hout
    Hfail s'. subst s'.
  apply Z.ltb_ge in Hlen.
  unfold status. unfold_handlers.
  rewrite Hid. cbn. rewrite Htok. cbn. rewrite Hjwt. cbn. rewrite Hdb. cbn.
  rewrite N.eqb_refl. cbn. rewrite Hlen, Hfile. cbn.
  rewrite Hmedia. cbn. rewrite Htemp. cbn. rewrite Hcopy. cbn.
  rewrite Hseek. cbn. rewrite Hprobe. cbn. rewrite Hout.
  assert (∀ d : gmap string string,
            delete name (<[name +:+ ".processing" := bytes]> d)
              !! (name +:+ ".processing") = Some bytes
            ∧ delete name (<[name +:+ ".processing" := bytes]> d) !! name
              = None) as Hleft.
  { intros d. rewrite lookup_delete_eq.
    rewrite lookup_delete_ne by by apply append_not_self.
    by rewrite lookup_insert_eq. }
  destruct Hfail as [[err ->]| ->]; cbn.
  - split; [done|]. apply Hleft.
  - destruct (exitError (ffmpeg env)); cbn.
    + split; [done|]. apply Hleft.
    + rewrite lookup_insert_eq. cbn. split; [done|]. apply Hleft.
Qed.

End HandlerFacts.

(** * The properties on the concrete deployment *)

Section Deployment.

Import Scenario.

Lemma video_non_owner_rejected_before_staging_witness :
  let s' := serve (handlerUploadVideo cfg K fine
                     (upload "bob" "video" "video/mp4")) start in
  response s'
    = Some (mkResponse StatusUnauthorized
              (ErrorBody "User is not the owner of the video" None))
  ∧ log s' = log start ++ [EvGetVideo 7%N; EvRespond StatusUnauthorized]
  ∧ disk s' = disk start ∧ db s' = db start ∧ objects s' = objects start.
Proof.
  apply (video_non_owner_rejected_before_staging cfg K fine
           (upload "bob" "video" "video/mp4") start
           7%N 200%N "bob" video7);
    try reflexivity.
  vm_compute. discriminate.
Defined.

Lemma video_upload_success_witness :
  let s' := serve (handlerUploadVideo cfg K fine
                     (upload "alice" "video" "video/mp4")) start in
  (∃ videoID video aspectRatio url,
    uuid_Parse K (videoIDString (upload "alice" "video" "video/mp4"))
      = Ok videoID
    ∧ db start !! videoID = Some video
    ∧ getVideoAspectRatio (ffprobe fine) = Ok aspectRatio
    ∧ let key := filepath_Join K (directoryOf aspectRatio)
                   (getAssetPath K "video/mp4") in
      let reference := encodeVideoURL (s3Bucket cfg) key in
      db s' = <[ID video := setVideoURL (Some reference) video]> (db start)
      ∧ PresignGetObject K (s3Bucket cfg) key (10 * Minute) = Ok url
      ∧ EvPresign (s3Bucket cfg) key (10 * Minute) ∈ log s'
      ∧ VideoBody
          (setVideoURL
             (Some "https://tubely-bucket.s3.amazonaws.com/landscape/k3y.mp4?X-Amz-Expires=600")
             video7)
        = VideoBody (setVideoURL (Some url) video))
  ∧ (∀ v st, db (finalState (dbVideoToSignedVideo K v st)) = db st).
Proof.
  apply (video_upload_success cfg K fine
           (upload "alice" "video" "video/mp4") start).
  vm_compute. reflexivity.
Defined.

Lemma content_type_checks_witness :
  (∃ msg,
     response (serve (handlerUploadThumbnail cfg K fine
                        (upload "alice" "thumbnail" "image/png; charset=utf-8"))
                 start)
     = Some (mkResponse StatusBadRequest (ErrorBody msg None)))
  ∧ status (serve (handlerUploadThumbnail cfg K fine
                     (upload "alice" "thumbnail" "image/png")) start)
    ≠ Some StatusBadRequest
  ∧ status (serve (handlerUploadVideo cfg K fine
                     (upload "alice" "video" "video/mp4; codecs=avc1")) start)
    ≠ Some StatusBadRequest.
Proof.
  destruct (content_type_checks cfg K fine) as [Hthumb Hvideo].
  split; [|split].
  - apply (Hthumb (upload "alice" "thumbnail" "image/png; charset=utf-8")
             start 7%N "alice"%string 100%N
             (mkPart "image/png; charset=utf-8" "BYTES"));
      try reflexivity.
    intros [H|H]; discriminate H.
  - apply (Hthumb (upload "alice" "thumbnail" "image/png")
             start 7%N "alice"%string 100%N (mkPart "image/png" "BYTES"));
      try reflexivity.
    by right.
  - apply (Hvideo (upload "alice" "video" "video/mp4; codecs=avc1")
             start 7%N "alice"%string video7
             (mkPart "video/mp4; codecs=avc1" "BYTES") []);
      try reflexivity.
    vm_compute. discriminate.
Defined.

Lemma remuxer_postconditions_witness :
  ∃ res s',
    processVideoForFastStart remuxCrash "/tmp/tubely-upload.mp4-1" start
      = Next res s'
    ∧ res = Fail (ErrProcessFailed "moov atom not found"
                    (External "exit status 1"))
    ∧ Contains (Error (ErrProcessFailed "moov atom not found"
                         (External "exit status 1")))
        "moov atom not found".
Proof.
  destruct (remuxer_postconditions remuxCrash "/tmp/tubely-upload.mp4-1" start)
    as (res & s' & Hrun & _ & _ & Hexit & _).
  exists res, s'. split; [exact Hrun|].
  apply (Hexit (External "exit status 1")). reflexivity.
Defined.

(** C1.  The claim fails on the code.  Bob, who holds a valid credential
    but does not own record 7, uploads a PNG thumbnail for it: the answer
    is the authorization error and the record store is untouched, but the
    file was created and filled before the record was fetched, and it is
    on the disk when the call ends. *)
Theorem thumbnail_non_owner_file_persisted :
  let s' := serve (handlerUploadThumbnail cfg K fine
                     (upload "bob" "thumbnail" "image/png")) start in
  response s'
    = Some (mkResponse StatusUnauthorized
              (ErrorBody "User is not the owner of the video" None))
  ∧ disk start !! "assets/k3y.png"%string = None
  ∧ disk s' !! "assets/k3y.png"%string = Some "BYTES"%string
  ∧ db s' = db start
  ∧ log s' = [EvParseMultipartForm; EvFormFile "thumbnail";
              EvCreate "assets/k3y.png"; EvCopy "assets/k3y.png";
              EvGetVideo 7%N; EvRespond StatusUnauthorized;
              EvClose "assets/k3y.png"; EvClose "thumbnail"].
Proof. vm_compute. repeat split. Qed.

(** C6.  The claim fails on the code for the video path.  Alice uploads a
    video for her record 7 at time 5000 and everything succeeds: the
    record handed to the record store, and stored, still has the
    [UpdatedAt] it was fetched with, 1000.  The thumbnail path, on the
    same record and at the same time, stores 5000. *)
Theorem video_upload_leaves_UpdatedAt_unset :
  let s' := serve (handlerUploadVideo cfg K fine
                     (upload "alice" "video" "video/mp4")) start in
  let t' := serve (handlerUploadThumbnail cfg K fine
                     (upload "alice" "thumbnail" "image/png")) start in
  now fine = 5000
  ∧ status s' = Some StatusOK
  ∧ updatesIn (log s')
    = [mkVideo 7%N 1000 None (Some "tubely-bucket,landscape/k3y.mp4") 100%N]
  ∧ db s' !! 7%N
    = Some (mkVideo 7%N 1000 None (Some "tubely-bucket,landscape/k3y.mp4")
              100%N)
  ∧ status t' = Some StatusOK
  ∧ db t' !! 7%N
    = Some (mkVideo 7%N 5000
              (Some "http://localhost:8091/assets/k3y.png") None 100%N).
Proof. vm_compute. repeat split. Qed.

(** C9.  The claim fails on the code when the remux step itself fails.
    With a remuxer that exits successfully over an empty output file, and
    with one that fails after writing part of its output, the handler
    answers with an internal error and the [.processing] file is still on
    the disk when the call ends; the staged file is removed.  When it is
    the upload to the object store that fails, both files are removed. *)
Theorem video_remux_failure_output_left_behind :
  let request := upload "alice" "video" "video/mp4" in
  let processed := "/tmp/tubely-upload.mp4-1.processing"%string in
  let staged := "/tmp/tubely-upload.mp4-1"%string in
  let s1 := serve (handlerUploadVideo cfg K emptyOutput request) start in
  let s2 := serve (handlerUploadVideo cfg K remuxCrash request) start in
  let s3 := serve (handlerUploadVideo cfg K putRefused request) start in
  disk start = ∅
  ∧ response s1
    = Some (mkResponse StatusInternalServerError
              (ErrorBody "Couldn't process video for fast start"
                 (Some ErrProcessedEmpty)))
  ∧ disk s1 !! processed = Some EmptyString
  ∧ disk s1 !! staged = None
  ∧ response s2
    = Some (mkResponse StatusInternalServerError
              (ErrorBody "Couldn't process video for fast start"
                 (Some (ErrProcessFailed "moov atom not found"
                          (External "exit status 1")))))
  ∧ disk s2 !! processed = Some "MO"%string
  ∧ disk s2 !! staged = None
  ∧ response s3
    = Some (mkResponse StatusInternalServerError
              (ErrorBody "Couldn't upload video to S3"
                 (Some (External "AccessDenied"))))
  ∧ disk s3 = ∅.
Proof. vm_compute. repeat split. Qed.

End Deployment.

(** * Further properties of the same files *)

(** ** The reference codec, both ways *)

Lemma Contains_Count (s : string) : Contains s "," → Count s comma ≠ 0%nat.
Proof. intros H E. by apply (Count_zero_iff comma) in E. Qed.

(** X1.  An encoded reference decodes to the pair it was built from exactly
    when neither the bucket nor the key holds a comma; with a comma in
    either, decoding the reference fails with the format error, which
    carries the stored string. *)
Theorem decode_encode_needs_no_comma (bucket key : string) :
  (decodeVideoURL (encodeVideoURL bucket key) = Ok (bucket, key)
     ↔ ¬ Contains bucket "," ∧ ¬ Contains key ",")
  ∧ (Contains bucket "," ∨ Contains key "," →
       decodeVideoURL (encodeVideoURL bucket key)
       = Fail (ErrURLFormat (encodeVideoURL bucket key))).
Proof.
  split.
  - split.
    + by intros (_ & Hb & Hk)%decode_Ok_iff.
    + intros [Hb Hk].
      apply decode_encode_by_count; by apply Count_zero_iff.
  - intros H. apply decode_Fail_iff.
    unfold encodeVideoURL. rewrite !Count_app. simpl.
    destruct H as [H%Contains_Count | H%Contains_Count]; lia.
Qed.

Lemma decode_encode_needs_no_comma_witness :
  decodeVideoURL (encodeVideoURL "tubely,bucket" "portrait/k3y.mp4")
  = Fail (ErrURLFormat (encodeVideoURL "tubely,bucket" "portrait/k3y.mp4")).
Proof.
  apply (decode_encode_needs_no_comma "tubely,bucket" "portrait/k3y.mp4").
  left. by exists "tubely"%string, "bucket"%string.
Defined.

Section MoreFacts.

Variable cfg : apiConfig.
Variable K : Collaborators.
Variable env : Env.

(** ** The presign transform, case by case *)

(** X2.  [dbVideoToSignedVideo] returns the record with at most its
    [VideoURL] changed and writes nothing.  A record without a reference
    comes back as it is, with no error and no presign request; a reference
    that does not hold exactly one comma gives the format error and the
    record as it is; a well-formed reference gives the URL presigned for
    its bucket and key for ten minutes, or the signing error wrapped
    twice, again with the record as it is. *)
Theorem presign_transform_cases (v : Video) (s : State) :
  ∃ res err s',
    dbVideoToSignedVideo K v s = Next (res, err) s'
    ∧ (db s' = db s ∧ disk s' = disk s ∧ objects s' = objects s
       ∧ response s' = response s ∧ deferred s' = deferred s)
    ∧ (ID res = ID v ∧ UserID res = UserID v ∧ UpdatedAt res = UpdatedAt v
       ∧ ThumbnailURL res = ThumbnailURL v)
    ∧ (err ≠ None → res = v)
    ∧ (VideoURL v = None → res = v ∧ err = None ∧ s' = s)
    ∧ (∀ url, VideoURL v = Some url → Count url comma ≠ 1%nat →
         err = Some (ErrURLFormat url) ∧ s' = s)
    ∧ (∀ bucket key, VideoURL v = Some (encodeVideoURL bucket key) →
         ¬ Contains bucket "," → ¬ Contains key "," →
         s' = record (EvPresign bucket key (10 * Minute)) s
         ∧ match PresignGetObject K bucket key (10 * Minute) with
           | Ok url => res = setVideoURL (Some url) v ∧ err = None
           | Fail e => err = Some (ErrPresignVideo (ErrPresign e))
           end).
Proof.
  unfold dbVideoToSignedVideo, generatePresignedURL, bind, ret.
  destruct (VideoURL v) as [url|] eqn:Hurl.
  2: { eexists _, _, _. split; [done|]. repeat split; done. }
  destruct (decodeVideoURL url) as [[b k]|e] eqn:Hdec.
  - pose proof Hdec as (-> & Hb & Hk)%decode_Ok_iff.
    assert (Count (encodeVideoURL b k) comma = 1%nat) as Hone.
    { unfold encodeVideoURL. rewrite !Count_app. simpl.
      apply (Count_zero_iff comma) in Hb, Hk. unfold comma in *. lia. }
    assert (∀ bucket key,
              Some (encodeVideoURL b k) = Some (encodeVideoURL bucket key) →
              bucket = b ∧ key = k) as Hinj.
    { intros bucket key [= E]. rewrite E in Hdec.
      by apply decode_encode_inv in Hdec as [-> ->]. }
    destruct (PresignGetObject K b k (10 * Minute)) as [u|e] eqn:Hsign.
    + eexists _, _, _. split; [done|].
      split; [done|]. split; [done|]. split; [done|]. split; [done|].
      split.
      * by intros ? [= <-] ?.
      * intros bucket key [-> ->]%Hinj _ _. by rewrite Hsign.
    + eexists _, _, _. split; [done|].
      split; [done|]. split; [done|]. split; [done|]. split; [done|].
      split.
      * by intros ? [= <-] ?.
      * intros bucket key [-> ->]%Hinj _ _. by rewrite Hsign.
  - assert (e = ErrURLFormat url) as ->.
    { unfold decodeVideoURL in Hdec.
      destruct (Split url comma) as [|? [|? [|? ?]]]; congruence. }
    eexists _, _, _. split; [done|].
    split; [done|]. split; [done|]. split; [done|]. split; [done|].
    split.
    + by intros ? [= <-] ?.
    + intros bucket key [= ->] Hb Hk.
      rewrite decode_encode_by_count in Hdec by by apply Count_zero_iff.
      done.
Qed.

(** ** The remuxer and the files around it *)

(** X3.  [processVideoForFastStart] writes to no path but its output path:
    its input file and every other file are as before, and so are the
    record store and the object store.  When the process leaves nothing
    behind, the disk is unchanged. *)
Theorem remuxer_touches_only_its_output (inputFilePath : string) (s : State) :
  ∃ res s',
    processVideoForFastStart env inputFilePath s = Next res s'
    ∧ disk s' !! inputFilePath = disk s !! inputFilePath
    ∧ (∀ path, path ≠ inputFilePath +:+ ".processing" →
         disk s' !! path = disk s !! path)
    ∧ (written (ffmpeg env) = None → disk s' = disk s)
    ∧ db s' = db s ∧ objects s' = objects s ∧ response s' = response s.
Proof.
  rewrite processVideoForFastStart_run.
  assert (inputFilePath ≠ inputFilePath +:+ ".processing") as Hne
    by by apply append_not_self.
  destruct (exitError (ffmpeg env)); eexists _, _; (split; [done|]);
    destruct (written (ffmpeg env)); cbn; repeat split; try done;
    intros; by rewrite lookup_insert_ne.
Qed.

End MoreFacts.

(** ** The classifier on frames without a positive width *)

Lemma binary_round_aux_notPositive m e l :
  notPositive (binary_round_aux Float64.prec Float64.emax true m e l).
Proof.
  unfold binary_round_aux.
  destruct (shr_fexp _ _ m e l) as [mrs1 e1].
  destruct (shr_fexp _ _ _ e1 loc_Exact) as [mrs2 e2].
  destruct (shr_m mrs2); [done| |done].
  by destruct (e2 <=? Float64.emax - Float64.prec).
Qed.

Lemma of_int_positive (n : positive) :
  (∃ m e, Float64.of_int (Zpos n) = S754_finite false m e)
  ∨ Float64.of_int (Zpos n) = S754_infinity false.
Proof. apply binary_round_nonzero. Qed.

Lemma of_int_negative (n : positive) :
  (∃ m e, Float64.of_int (Zneg n) = S754_finite true m e)
  ∨ Float64.of_int (Zneg n) = S754_infinity true.
Proof. apply binary_round_nonzero. Qed.

Lemma div_notPositive (Width Height : Z) :
  Width <= 0 → 0 < Height →
  notPositive (Float64.div (Float64.of_int Width) (Float64.of_int Height)).
Proof.
  intros Hw Hh.
  destruct Height as [|h|h]; try lia.
  destruct Width as [|w|w]; try lia.
  - change (Float64.of_int 0) with (S754_zero false).
    by destruct (of_int_positive h) as [(m & e & ->)| ->].
  - destruct (of_int_negative w) as [(mw & ew & ->)| ->];
      destruct (of_int_positive h) as [(mh & eh & ->)| ->]; try done.
    unfold Float64.div, SFdiv.
    destruct (SFdiv_core_binary _ _ _ _ _ _) as [[mz ez] lz].
    apply binary_round_aux_notPositive.
Qed.

Lemma notPositive_outside_bands (ratio : spec_float) :
  notPositive ratio →
  withinTolerance ratio verticalAspectRatio = false
  ∧ withinTolerance ratio horizontalAspectRatio = false.
Proof.
  destruct ratio as [[]|[]| |[] m e]; simpl; intros H; try destruct H;
    by vm_compute.
Qed.

(** X4.  A frame whose width is zero or negative, over a positive height,
    is not rejected: it is classified as other, whatever the numbers. *)
Theorem aspect_of_non_positive_width (Width Height : Z) :
  Width <= 0 → 0 < Height →
  aspectRatioOf Width Height = Ok "other"%string
  ∧ directoryOf "other" = "other"%string.
Proof.
  intros Hw Hh. split; [|done].
  unfold aspectRatioOf. rewrite of_int_eqb_zero.
  destruct (Z.eqb_spec Height 0) as [->|_]; [lia|]. cbv zeta.
  destruct (notPositive_outside_bands _ (div_notPositive _ _ Hw Hh))
    as [-> ->].
  done.
Qed.

Lemma aspect_of_non_positive_width_witness :
  aspectRatioOf (-1920) 1080 = Ok "other"%string
  ∧ directoryOf "other" = "other"%string.
Proof. apply aspect_of_non_positive_width; lia. Defined.

(** ** Running the earlier revision symbolically *)

Ltac unfold_earlier :=
  unfold serve, Earlier.handlerUploadVideo, Earlier.contents, orRespond,
    GetVideo, FormFile, os_CreateTemp, io_Copy, Seek, PutObject, UpdateVideo,
    respondWithError, respondWithJSON, defer, modify, return_, bind, ret.

Ltac followed := repeat first [ apply followed_here | apply followed_later ].

Section HandlerEffects.

Variable cfg : apiConfig.
Variable K : Collaborators.
Variable env : Env.
Variable getObjectURL : string → string.

(** ** Requests turned away at the door *)

(** X5.  A request whose record id does not parse, or that carries no
    token or a token that does not validate, is answered by each of the
    three handlers with 400 (bad id) or 401 (bad credential) before
    anything else happens: the response is the only effect, and the disk,
    the record store and the object store are not touched. *)
Theorem request_without_identity_has_no_effect
    (r : Request) (s : State) (h : Handler unit) :
  (∃ e, uuid_Parse K (videoIDString r) = Fail e)
  ∨ (∃ e, GetBearerToken K (Header r) = Fail e)
  ∨ (∃ token e, GetBearerToken K (Header r) = Ok token
                ∧ ValidateJWT K token (jwtSecret cfg) = Fail e) →
  h = handlerUploadThumbnail cfg K env r
  ∨ h = handlerUploadVideo cfg K env r
  ∨ h = Earlier.handlerUploadVideo cfg K env getObjectURL r →
  let s' := serve h s in
  let code := match uuid_Parse K (videoIDString r) with
              | Fail _ => StatusBadRequest
              | Ok _ => StatusUnauthorized
              end in
  status s' = Some code
  ∧ log s' = log s ++ [EvRespond code]
  ∧ disk s' = disk s ∧ db s' = db s ∧ objects s' = objects s.
Proof.
  intros Hdoor Hh s' code. subst s' code.
  destruct Hh as [-> | [-> | ->]].
  all: unfold status; unfold_handlers; unfold_earlier.
  all: destruct (uuid_Parse K (videoIDString r)) as [videoID|e0]; cbn;
    [|done].
  all: destruct Hdoor as [[e [=]] | [[e ->] | (token & e & -> & Hjwt)]]; cbn;
    [done|].
  all: by rewrite Hjwt.
Qed.

(** ** One response per request *)

(** X6.  Each of the three handlers answers every request exactly once,
    with 200, 400, 401 or 500, and the status written is the one in the
    log. *)
Theorem handlers_respond_exactly_once (r : Request) (s : State)
    (h : Handler unit) :
  h = handlerUploadThumbnail cfg K env r
  ∨ h = handlerUploadVideo cfg K env r
  ∨ h = Earlier.handlerUploadVideo cfg K env getObjectURL r →
  ∃ events code,
    log (serve h s) = log s ++ events
    ∧ responsesIn events = [code]
    ∧ status (serve h s) = Some code
    ∧ (code = StatusOK ∨ code = StatusBadRequest
       ∨ code = StatusUnauthorized ∨ code = StatusInternalServerError).
Proof.
  intros [-> | [-> | ->]].
  all: unfold status; unfold_handlers; unfold_earlier; run.
  all: rewrite <- ?app_assoc; eexists _, _; split; [reflexivity|].
  all: split; [reflexivity|]; split; [reflexivity|]; tauto.
Qed.

(** ** The local files of the video handler *)

(** X7.  Whenever the video handler has created its temporary file, in
    either revision, the file is closed and, right after, removed before
    the call ends, whatever happened in between; it is not on the disk
    afterwards. *)
Theorem staged_file_closed_then_removed (r : Request) (s : State)
    (h : Handler unit) :
  h = handlerUploadVideo cfg K env r
  ∨ h = Earlier.handlerUploadVideo cfg K env getObjectURL r →
  ∃ events,
    log (serve h s) = log s ++ events
    ∧ ∀ name, EvCreateTemp name ∈ events →
        createTemp env = Ok name
        ∧ followedBy (EvClose name) (EvRemove name) events
        ∧ disk (serve h s) !! name = None.
Proof.
  intros [-> | ->].
  all: unfold_handlers; unfold_earlier; run.
  all: rewrite <- ?app_assoc; eexists; split; [reflexivity|].
  all: intros name Hin; simpl in Hin.
  all: repeat (apply elem_of_cons in Hin as [Hin|Hin]; [try discriminate|]).
  all: try by apply elem_of_nil in Hin.
  all: injection Hin as ->.
  all: split; [done|]; split; [simpl; followed|].
  all: by rewrite lookup_delete_eq.
Qed.

(** X8.  The video handler touches no file but its temporary file and the
    [.processing] file beside it: every other path of the disk holds after
    the call what it held before. *)
Theorem video_handler_touches_only_its_files (r : Request) (s : State)
    (path : string) :
  (∀ name, createTemp env = Ok name →
     path ≠ name ∧ path ≠ name +:+ ".processing") →
  disk (serve (handlerUploadVideo cfg K env r) s) !! path = disk s !! path.
Proof.
  intros Hpath. unfold_handlers. run.
  all: try done.
  all: destruct (Hpath _ eq_refl) as [Hn Hp].
  all: rewrite ?lookup_delete_ne by done.
  all: rewrite ?lookup_insert_ne by done.
  all: done.
Qed.

(** ** What the video handler writes to the two stores *)

(** X9.  The video handler leaves the record store as it is, or it
    replaces the one record it fetched by the same record with a new
    [VideoURL]; the second happens only for a caller authenticated as the
    owner of that record and only after the object store has accepted the
    upload. *)
Theorem video_record_written_only_for_owner_after_upload
    (r : Request) (s : State) :
  let s' := serve (handlerUploadVideo cfg K env r) s in
  db s' = db s
  ∨ ∃ videoID token video key bytes,
      uuid_Parse K (videoIDString r) = Ok videoID
      ∧ GetBearerToken K (Header r) = Ok token
      ∧ ValidateJWT K token (jwtSecret cfg) = Ok (UserID video)
      ∧ db s !! videoID = Some video
      ∧ putObjectError env = None
      ∧ objects s' = <[(s3Bucket cfg, key) := (bytes, "video/mp4"%string)]>
                       (objects s)
      ∧ db s' = <[ID video :=
                    setVideoURL (Some (encodeVideoURL (s3Bucket cfg) key))
                      video]> (db s).
Proof.
  intros s'. subst s'. unfold serve.
  rewrite runDeferred_db, runDeferred_objects.
  unfold_handlers. run.
  all: try by left.
  all: right.
  all: repeat match goal with
       | H : negb (N.eqb _ _) = false |- _ =>
           apply negb_false_iff, N.eqb_eq in H; subst
       | H : negb (String.eqb _ "video/mp4") = false |- _ =>
           apply negb_false_iff, String.eqb_eq in H; rewrite H in *
       end.
  all: by eexists _, _, _, _, _.
Qed.

(** X10.  The video handler leaves the object store as it is, or it adds
    one object: under the configured bucket and the key made of the
    orientation directory and the fresh asset path, with content type
    [video/mp4], holding the non-empty bytes found at the [.processing]
    path, which are the remuxer's output when it wrote one. *)
Theorem video_object_is_the_remuxed_file (r : Request) (s : State) :
  let s' := serve (handlerUploadVideo cfg K env r) s in
  objects s' = objects s
  ∨ ∃ aspectRatio bytes,
      getVideoAspectRatio (ffprobe env) = Ok aspectRatio
      ∧ putObjectError env = None
      ∧ bytes ≠ EmptyString
      ∧ (∀ out, written (ffmpeg env) = Some out → bytes = out)
      ∧ objects s'
        = <[(s3Bucket cfg,
             filepath_Join K (directoryOf aspectRatio)
               (getAssetPath K "video/mp4"))
            := (bytes, "video/mp4"%string)]> (objects s).
Proof.
  intros s'. subst s'. unfold serve. rewrite runDeferred_objects.
  unfold_handlers. run.
  all: try by left.
  all: right.
  all: repeat match goal with
       | H : negb (String.eqb _ "video/mp4") = false |- _ =>
           apply negb_false_iff, String.eqb_eq in H; rewrite H in *
       | H : <[?k := _]> _ !! ?k = Some _ |- _ =>
           rewrite lookup_insert_eq in H; injection H as <-
       | H : Some _ = Some _ |- _ => injection H as ->
       | H : (Z.of_nat (String.length ?b) =? 0) = false |- _ =>
           assert (b ≠ EmptyString) by (by intros ->); clear H
       end.
  all: eexists _, _; split; [reflexivity|]; split; [reflexivity|];
    split; [eassumption|]; split; [|reflexivity].
  all: intros out Hout; congruence.
Qed.

(** X11.  Nothing is rolled back.  When the record store refuses the
    update, the answer is a 500 and the object just uploaded stays in the
    object store with the record unchanged; when signing the stored
    reference fails, the answer is a 500 although the object and the new
    reference are both stored. *)
Theorem video_failures_after_upload_not_rolled_back
    (r : Request) (s : State) (msg : string) (detail : option error) :
  let s' := serve (handlerUploadVideo cfg K env r) s in
  response s' = Some (mkResponse StatusInternalServerError
                        (ErrorBody msg detail)) →
  (msg = "Couldn't update video in database"%string →
     db s' = db s
     ∧ ∃ key body, objects s' = <[(s3Bucket cfg, key) := body]> (objects s))
  ∧ (msg = "Couldn't convert video to signed video"%string →
     ∃ video key body,
       objects s' = <[(s3Bucket cfg, key) := body]> (objects s)
       ∧ db s' = <[ID video :=
                     setVideoURL (Some (encodeVideoURL (s3Bucket cfg) key))
                       video]> (db s)).
Proof.
  intros s'. subst s'. unfold serve.
  rewrite runDeferred_response, runDeferred_db, runDeferred_objects.
  unfold_handlers. run.
  all: intros [= <- <-]; split; intros [=].
  all: eauto.
Qed.

(** ** Validation failures of the video handler *)

(** X12.  A body over the cap of [10 << 30] bytes is refused by the video
    handler when it tries to read the form: the owner gets a 400 that
    carries the error of the reader, and no temporary file is created. *)
Theorem video_body_over_cap_refused
    (r : Request) (s : State) (videoID : uuid) (token : string)
    (video : Video) :
  uuid_Parse K (videoIDString r) = Ok videoID →
  GetBearerToken K (Header r) = Ok token →
  ValidateJWT K token (jwtSecret cfg) = Ok (UserID video) →
  db s !! videoID = Some video →
  10 * 2 ^ 30 < ContentLength r →
  let s' := serve (handlerUploadVideo cfg K env r) s in
  (∃ err, response s'
          = Some (mkResponse StatusBadRequest
                    (ErrorBody "Couldn't parse video form" (Some err))))
  ∧ log s' = log s ++ [EvGetVideo videoID; EvFormFile "video";
                       EvRespond StatusBadRequest]
  ∧ disk s' = disk s ∧ db s' = db s ∧ objects s' = objects s.
Proof.
  intros Hid Htok Hjwt Hdb Hlen s'. subst s'.
  assert ((maxMemoryVideo <? ContentLength r) = true) as Hcap.
  { apply Z.ltb_lt. by vm_compute in Hlen |- *. }
  unfold_handlers.
  rewrite Hid. cbn. rewrite Htok. cbn. rewrite Hjwt. cbn. rewrite Hdb. cbn.
  rewrite N.eqb_refl. cbn. rewrite Hcap. cbn.
  split; [by eexists|]. repeat split. by rewrite <- !app_assoc.
Qed.

(** X13.  The video handler refuses a part whose [Content-Type] does not
    parse, or parses to a media type other than [video/mp4], with a 400:
    it creates no temporary file and writes to no store. *)
Theorem video_wrong_media_type_refused
    (r : Request) (s : State) (videoID : uuid) (token : string)
    (video : Video) (file : Part) :
  uuid_Parse K (videoIDString r) = Ok videoID →
  GetBearerToken K (Header r) = Ok token →
  ValidateJWT K token (jwtSecret cfg) = Ok (UserID video) →
  db s !! videoID = Some video →
  ContentLength r <= maxMemoryVideo →
  formPart r "video" = Ok file →
  (∀ params, ParseMediaType K (ContentType file)
             ≠ Ok ("video/mp4"%string, params)) →
  let s' := serve (handlerUploadVideo cfg K env r) s in
  status s' = Some StatusBadRequest
  ∧ log s' = log s ++ [EvGetVideo videoID; EvFormFile "video";
                       EvRespond StatusBadRequest; EvClose "video"]
  ∧ disk s' = disk s ∧ db s' = db s ∧ objects s' = objects s.
Proof.
  intros Hid Htok Hjwt Hdb Hlen Hfile Hmedia s'. subst s'.
  apply Z.ltb_ge in Hlen.
  unfold status. unfold_handlers.
  rewrite Hid. cbn. rewrite Htok. cbn. rewrite Hjwt. cbn. rewrite Hdb. cbn.
  rewrite N.eqb_refl. cbn. rewrite Hlen, Hfile. cbn.
  destruct (ParseMediaType K (ContentType file)) as [[mediaType params]|e];
    cbn.
  - destruct (String.eqb_spec mediaType "video/mp4") as [->|_]; cbn.
    + by destruct (Hmedia params).
    + repeat split. by rewrite <- !app_assoc.
  - repeat split. by rewrite <- !app_assoc.
Qed.

(** ** The thumbnail handler, the whole way *)

(** X14.  When a thumbnail upload is answered with 200, the part had one
    of the two accepted content types, its bytes are in the asset file,
    and the record store holds the fetched record with [ThumbnailURL] set
    to the URL of the asset and [UpdatedAt] set to the time of the call,
    its id, owner and [VideoURL] being as before; the response carries
    that record. *)
Theorem thumbnail_upload_success (r : Request) (s : State) (body : Payload) :
  let s' := serve (handlerUploadThumbnail cfg K env r) s in
  response s' = Some (mkResponse StatusOK body) →
  ∃ videoID token video file,
    uuid_Parse K (videoIDString r) = Ok videoID
    ∧ GetBearerToken K (Header r) = Ok token
    ∧ ValidateJWT K token (jwtSecret cfg) = Ok (UserID video)
    ∧ db s !! videoID = Some video
    ∧ formPart r "thumbnail" = Ok file
    ∧ (ContentType file = "image/jpeg"%string
       ∨ ContentType file = "image/png"%string)
    ∧ let assetPath := getAssetPath K (ContentType file) in
      let stored :=
        mkVideo (ID video) (now env) (Some (getAssetURL K assetPath))
          (VideoURL video) (UserID video) in
      disk s' !! getAssetDiskPath K assetPath = Some (Data file)
      ∧ db s' = <[ID video := stored]> (db s)
      ∧ body = VideoBody stored.
Proof.
  intros s'. subst s'. unfold_handlers. run.
  intros [= <-].
  repeat match goal with
         | H : negb (N.eqb _ _) = false |- _ =>
             apply negb_false_iff, N.eqb_eq in H; subst
         | H : negb _ && negb _ = false |- _ =>
             apply andb_false_iff in H as [H|H];
             apply negb_false_iff, String.eqb_eq in H
         end.
  all: eexists _, _, _, _; repeat (split; [eassumption || reflexivity|]).
  all: split; [first [by left | by right]|].
  all: split; [by rewrite lookup_insert_eq|]; split; reflexivity.
Qed.

(** X15.  The thumbnail handler never touches the object store, never
    removes a file and writes to no path but the asset path of the part it
    was sent; it leaves the record store as it is or replaces the one
    record it fetched, and the second only for a caller authenticated as
    the owner of that record. *)
Theorem thumbnail_handler_effects (r : Request) (s : State) :
  let s' := serve (handlerUploadThumbnail cfg K env r) s in
  objects s' = objects s
  ∧ (∀ path, is_Some (disk s !! path) → is_Some (disk s' !! path))
  ∧ (∀ path,
       (∀ file, formPart r "thumbnail" = Ok file →
          path ≠ getAssetDiskPath K (getAssetPath K (ContentType file))) →
       disk s' !! path = disk s !! path)
  ∧ (db s' = db s
     ∨ ∃ videoID token video stored,
         uuid_Parse K (videoIDString r) = Ok videoID
         ∧ GetBearerToken K (Header r) = Ok token
         ∧ ValidateJWT K token (jwtSecret cfg) = Ok (UserID video)
         ∧ db s !! videoID = Some video
         ∧ ID stored = ID video ∧ UserID stored = UserID video
         ∧ VideoURL stored = VideoURL video
         ∧ db s' = <[ID video := stored]> (db s)).
Proof.
  intros s'. subst s'.
  split; [|split; [|split]].
  - unfold serve. rewrite runDeferred_objects. unfold_handlers. by run.
  - intros path Hsome. unfold_handlers. run; try done.
    all: match goal with
         | |- is_Some (<[?k := _]> _ !! _) =>
             destruct (decide (k = path)) as [->|?]
         end.
    all: first [ by rewrite lookup_insert_eq
               | by rewrite !lookup_insert_ne ].
  - intros path Hpath. unfold_handlers. run; try done.
    all: pose proof (Hpath _ eq_refl) as Hne.
    all: by rewrite !lookup_insert_ne.
  - unfold serve. rewrite runDeferred_db. unfold_handlers. run.
    all: try by left.
    right.
    repeat match goal with
           | H : negb (N.eqb _ _) = false |- _ =>
               apply negb_false_iff, N.eqb_eq in H; subst
           end.
    eexists _, _, _, _; split_and!; [..|reflexivity];
      first [reflexivity | eassumption].
Qed.

(** X16.  Once the thumbnail handler has stored the file, the file stays,
    whatever the record store then says: a missing record, another owner
    or a refused update give an error response, leave the record store
    unchanged and leave the file on the disk. *)
Theorem thumbnail_file_stays_whatever_follows
    (r : Request) (s : State) (videoID userID : uuid) (token : string)
    (file : Part) :
  uuid_Parse K (videoIDString r) = Ok videoID →
  GetBearerToken K (Header r) = Ok token →
  ValidateJWT K token (jwtSecret cfg) = Ok userID →
  formPart r "thumbnail" = Ok file →
  ContentType file = "image/jpeg"%string
  ∨ ContentType file = "image/png"%string →
  createError env = None →
  copyError env = None →
  let s' := serve (handlerUploadThumbnail cfg K env r) s in
  disk s' !! getAssetDiskPath K (getAssetPath K (ContentType file))
    = Some (Data file)
  ∧ (status s' = Some StatusOK
     ∨ (db s' = db s
        ∧ (status s' = Some StatusUnauthorized
           ∨ status s' = Some StatusInternalServerError))).
Proof.
  intros Hid Htok Hjwt Hfile Hct Hcreate Hcopy s'. subst s'.
  assert (∃ parts, MultipartForm r = Ok parts) as [parts Hparts].
  { unfold formPart in Hfile. destruct (MultipartForm r); [eauto|done]. }
  unfold status. unfold_handlers.
  rewrite Hid. cbn. rewrite Htok. cbn. rewrite Hjwt. cbn.
  rewrite Hparts. cbn. rewrite Hfile. cbn.
  assert (String.eqb (ContentType file) EmptyString = false) as ->.
  { by destruct Hct as [-> | ->]. }
  assert (negb (ContentType file =? "image/jpeg")%string
          && negb (ContentType file =? "image/png")%string = false) as ->.
  { by destruct Hct as [-> | ->]. }
  rewrite Hcreate. cbn. rewrite Hcopy. run.
  all: rewrite lookup_insert_eq; split; [done|].
  all: first [ by left
             | right; split; [done|]; first [by left | by right] ].
Qed.

(** ** The earlier revision of the video handler *)

(** X17.  When the earlier revision answers with 200, the object store
    holds the uploaded bytes as they were sent, under the fresh asset path
    without a directory, the record store holds the fetched record with
    [VideoURL] set to the object URL of that key, and the response carries
    the stored record: nothing is probed, remuxed or signed. *)
Theorem earlier_upload_success (r : Request) (s : State) (body : Payload) :
  let s' := serve (Earlier.handlerUploadVideo cfg K env getObjectURL r) s in
  response s' = Some (mkResponse StatusOK body) →
  ∃ videoID token video file events,
    uuid_Parse K (videoIDString r) = Ok videoID
    ∧ GetBearerToken K (Header r) = Ok token
    ∧ ValidateJWT K token (jwtSecret cfg) = Ok (UserID video)
    ∧ db s !! videoID = Some video
    ∧ formPart r "video" = Ok file
    ∧ let key := getAssetPath K "video/mp4" in
      let stored := setVideoURL (Some (getObjectURL key)) video in
      objects s' = <[(s3Bucket cfg, key) := (Data file, "video/mp4"%string)]>
                     (objects s)
      ∧ db s' = <[ID video := stored]> (db s)
      ∧ body = VideoBody stored
      ∧ log s' = log s ++ events
      ∧ ∀ e, e ∈ events →
          ∀ a b c, e ≠ EvProbe a ∧ e ≠ EvRemux a b ∧ e ≠ EvPresign a b c.
Proof.
  intros s'. subst s'. unfold_earlier. run.
  all: intros [= <-].
  all: repeat match goal with
       | H : negb (N.eqb _ _) = false |- _ =>
           apply negb_false_iff, N.eqb_eq in H; subst
       | H : negb (String.eqb _ "video/mp4") = false |- _ =>
           apply negb_false_iff, String.eqb_eq in H; rewrite H in *
       | H : <[?k := _]> _ !! ?k = Some _ |- _ =>
           rewrite lookup_insert_eq in H; injection H as <-
       | H : <[?k := _]> _ !! ?k = None |- _ =>
           by rewrite lookup_insert_eq in H
       end.
  all: rewrite <- ?app_assoc.
  all: eexists _, _, _, _, _; split_and!; try first [reflexivity|eassumption].
  all: intros e Hin; simpl in Hin.
  all: repeat (apply elem_of_cons in Hin as [->|Hin];
               [by intros ? ? ?; split_and!|]).
  all: by apply elem_of_nil in Hin.
Qed.

(** X18.  The earlier revision leaves the disk exactly as it found it, on
    every path, provided the name of the temporary file is fresh. *)
Theorem earlier_leaves_disk_as_found (r : Request) (s : State) :
  (∀ name, createTemp env = Ok name → disk s !! name = None) →
  disk (serve (Earlier.handlerUploadVideo cfg K env getObjectURL r) s)
  = disk s.
Proof.
  intros Hfresh. unfold_earlier. run; try done.
  all: pose proof (Hfresh _ eq_refl) as Hnone.
  all: rewrite ?delete_insert_eq.
  all: by rewrite delete_id.
Qed.

(** X19.  The two revisions agree up to the staging of the upload:
    whenever the later one answers with 400 or 401, the earlier one ends
    in the very same state, response and log included. *)
Theorem revisions_agree_on_refusals (r : Request) (s : State) :
  let later := serve (handlerUploadVideo cfg K env r) s in
  let earlier := serve (Earlier.handlerUploadVideo cfg K env getObjectURL r) s in
  status later = Some StatusBadRequest
  ∨ status later = Some StatusUnauthorized →
  earlier = later.
Proof.
  intros later earlier. subst later earlier.
  unfold status. unfold_handlers. unfold_earlier. run.
  all: intros [H|H]; try discriminate H; reflexivity.
Qed.

(** ** Probe failures and the disk after the call *)

(** X20.  When the video handler answers that it could not get the aspect
    ratio, the prober failed in one of its four ways (a failed run,
    unparseable output, no video stream, a height of zero), which the
    response names; the remuxer was not run and neither store was
    written. *)
Theorem video_probe_failure (r : Request) (s : State)
    (detail : option error) :
  let s' := serve (handlerUploadVideo cfg K env r) s in
  response s' = Some (mkResponse StatusInternalServerError
                        (ErrorBody "Couldn't get video aspect ratio" detail)) →
  ∃ err events,
    detail = Some err
    ∧ getVideoAspectRatio (ffprobe env) = Fail err
    ∧ ((∃ cause, err = ErrFfprobeFailed cause)
       ∨ (∃ cause, err = ErrFfprobeParse cause)
       ∨ err = ErrNoVideoStreams ∨ err = ErrHeightZero)
    ∧ db s' = db s ∧ objects s' = objects s
    ∧ log s' = log s ++ events
    ∧ ∀ input output, EvRemux input output ∉ events.
Proof.
  intros s'. subst s'. unfold_handlers. run.
  intros [= <-].
  rewrite <- ?app_assoc.
  eexists _, _; split_and!; try first [reflexivity|eassumption].
  - unfold getVideoAspectRatio, aspectRatioOf in *.
    destruct (ffprobe env) as [?|[[|[w h] ?]|?]]; simplify_eq; eauto.
    destruct (Float64.eqb _ _); simplify_eq; [eauto|].
    repeat destruct (withinTolerance _ _); simplify_eq.
  - intros input output Hin. simpl in Hin.
    repeat (apply elem_of_cons in Hin as [Hin|Hin]; [discriminate Hin|]).
    by apply elem_of_nil in Hin.
Qed.

(** X21.  With fresh names for its two temporary files, the video handler
    leaves the disk exactly as it found it, except when the remuxer fails
    after its process has written an output (a failed process, or an empty
    output): then that output, and nothing else, is added to the disk. *)
Theorem video_handler_disk_after_call (r : Request) (s : State) :
  (∀ name, createTemp env = Ok name →
     disk s !! name = None ∧ disk s !! (name +:+ ".processing") = None) →
  let s' := serve (handlerUploadVideo cfg K env r) s in
  disk s' = disk s
  ∨ ∃ name bytes,
      createTemp env = Ok name
      ∧ written (ffmpeg env) = Some bytes
      ∧ ((∃ err, exitError (ffmpeg env) = Some err) ∨ bytes = EmptyString)
      ∧ disk s' = <[name +:+ ".processing" := bytes]> (disk s).
Proof.
  intros Hfresh s'. subst s'. unfold_handlers. run.
  all: try by left.
  all: destruct (Hfresh _ eq_refl) as [Hname Hproc].
  all: match goal with
       | H : createTemp env = Ok ?name |- _ =>
           assert (name ≠ name +:+ ".processing") as Hne
             by (by apply append_not_self);
           assert (name +:+ ".processing" ≠ name) as Hne' by done
       end.
  all: repeat match goal with
       | H : <[?k := _]> _ !! ?k = Some _ |- _ =>
           rewrite lookup_insert_eq in H; injection H as <-
       | H : <[?k := _]> _ !! ?k = None |- _ =>
           by rewrite lookup_insert_eq in H
       | H : <[_ := _]> _ !! _ = Some _ |- _ =>
           rewrite !lookup_insert_ne in H by done; congruence
       | H : Some _ = Some _ |- _ => injection H as ->
       | H : (Z.of_nat (String.length ?b) =? 0) = true |- _ =>
           assert (b = EmptyString) as -> by (by destruct b); clear H
       end.
  all: first
         [ solve [ left;
                   repeat first
                     [ rewrite delete_insert_eq
                     | rewrite delete_insert_ne by done
                     | rewrite delete_id by (rewrite ?lookup_delete_ne by done; done) ];
                   done ]
         | right; eexists _, _; split; [reflexivity|];
           split; [reflexivity|]; split; [by eauto|];
           repeat first
             [ rewrite delete_insert_eq
             | rewrite delete_insert_ne by done
             | rewrite delete_id by (rewrite ?lookup_delete_ne by done; done) ];
           done ].
Qed.

End HandlerEffects.

(** * The further properties on the concrete deployments *)

Section MoreDeployment.

Import Scenario Incidents.

Lemma request_without_identity_has_no_effect_witness :
  let s' := serve (handlerUploadVideo cfg K fine anonymous) start in
  status s' = Some StatusUnauthorized
  ∧ log s' = log start ++ [EvRespond StatusUnauthorized]
  ∧ disk s' = disk start ∧ db s' = db start ∧ objects s' = objects start.
Proof.
  apply (request_without_identity_has_no_effect cfg K fine objectURL
           anonymous start (handlerUploadVideo cfg K fine anonymous)).
  - right. left. by eexists.
  - right. by left.
Defined.

Lemma handlers_respond_exactly_once_witness :
  ∃ events code,
    log (serve (handlerUploadThumbnail cfg K fine
                  (upload "alice" "thumbnail" "image/gif")) start)
      = log start ++ events
    ∧ responsesIn events = [code]
    ∧ status (serve (handlerUploadThumbnail cfg K fine
                       (upload "alice" "thumbnail" "image/gif")) start)
      = Some code
    ∧ (code = StatusOK ∨ code = StatusBadRequest
       ∨ code = StatusUnauthorized ∨ code = StatusInternalServerError).
Proof.
  apply (handlers_respond_exactly_once cfg K fine objectURL
           (upload "alice" "thumbnail" "image/gif") start).
  by left.
Defined.

Lemma staged_file_closed_then_removed_witness :
  ∃ events,
    log (serve (handlerUploadVideo cfg K putRefused
                  (upload "alice" "video" "video/mp4")) start)
      = log start ++ events
    ∧ ∀ name, EvCreateTemp name ∈ events →
        createTemp putRefused = Ok name
        ∧ followedBy (EvClose name) (EvRemove name) events
        ∧ disk (serve (handlerUploadVideo cfg K putRefused
                         (upload "alice" "video" "video/mp4")) start)
            !! name = None.
Proof.
  apply (staged_file_closed_then_removed cfg K putRefused objectURL
           (upload "alice" "video" "video/mp4") start).
  by left.
Defined.

Lemma video_handler_touches_only_its_files_witness :
  disk (serve (handlerUploadVideo cfg K remuxCrash
                 (upload "alice" "video" "video/mp4")) busy)
    !! "assets/old.png"%string
  = disk busy !! "assets/old.png"%string.
Proof.
  apply (video_handler_touches_only_its_files cfg K remuxCrash
           (upload "alice" "video" "video/mp4") busy "assets/old.png").
  intros name [= <-]. split; discriminate.
Defined.

Lemma video_failures_after_upload_not_rolled_back_witness :
  (let s' := serve (handlerUploadVideo cfg K updateRefused
                      (upload "alice" "video" "video/mp4")) start in
   db s' = db start
   ∧ ∃ key body, objects s' = <[(s3Bucket cfg, key) := body]> (objects start))
  ∧ (let s' := serve (handlerUploadVideo commaCfg K fine
                        (upload "alice" "video" "video/mp4")) start in
     ∃ video key body,
       objects s' = <[(s3Bucket commaCfg, key) := body]> (objects start)
       ∧ db s' = <[ID video :=
                     setVideoURL
                       (Some (encodeVideoURL (s3Bucket commaCfg) key))
                       video]> (db start)).
Proof.
  split.
  - apply (video_failures_after_upload_not_rolled_back cfg K updateRefused
             (upload "alice" "video" "video/mp4") start
             "Couldn't update video in database"
             (Some (External "database is locked")));
      vm_compute; reflexivity.
  - apply (video_failures_after_upload_not_rolled_back commaCfg K fine
             (upload "alice" "video" "video/mp4") start
             "Couldn't convert video to signed video"
             (Some (ErrURLFormat "tubely,bucket,landscape/k3y.mp4")));
      vm_compute; reflexivity.
Defined.

Lemma video_body_over_cap_refused_witness :
  let s' := serve (handlerUploadVideo cfg K fine oversized) start in
  (∃ err, response s'
          = Some (mkResponse StatusBadRequest
                    (ErrorBody "Couldn't parse video form" (Some err))))
  ∧ log s' = log start ++ [EvGetVideo 7%N; EvFormFile "video";
                           EvRespond StatusBadRequest]
  ∧ disk s' = disk start ∧ db s' = db start ∧ objects s' = objects start.
Proof.
  apply (video_body_over_cap_refused cfg K fine oversized start 7%N
           "alice" video7); try reflexivity.
Defined.

Lemma video_wrong_media_type_refused_witness :
  let s' := serve (handlerUploadVideo cfg K fine
                     (upload "alice" "video" "image/png")) start in
  status s' = Some StatusBadRequest
  ∧ log s' = log start ++ [EvGetVideo 7%N; EvFormFile "video";
                           EvRespond StatusBadRequest; EvClose "video"]
  ∧ disk s' = disk start ∧ db s' = db start ∧ objects s' = objects start.
Proof.
  apply (video_wrong_media_type_refused cfg K fine
           (upload "alice" "video" "image/png") start 7%N "alice" video7
           (mkPart "image/png" "BYTES")); try reflexivity.
  - vm_compute. discriminate.
  - intros params. vm_compute. discriminate.
Defined.

Lemma thumbnail_upload_success_witness :
  let r := upload "alice" "thumbnail" "image/png" in
  let s' := serve (handlerUploadThumbnail cfg K fine r) start in
  ∃ videoID token video file,
    uuid_Parse K (videoIDString r) = Ok videoID
    ∧ GetBearerToken K (Header r) = Ok token
    ∧ ValidateJWT K token (jwtSecret cfg) = Ok (UserID video)
    ∧ db start !! videoID = Some video
    ∧ formPart r "thumbnail" = Ok file
    ∧ (ContentType file = "image/jpeg"%string
       ∨ ContentType file = "image/png"%string)
    ∧ let assetPath := getAssetPath K (ContentType file) in
      let stored :=
        mkVideo (ID video) (now fine) (Some (getAssetURL K assetPath))
          (VideoURL video) (UserID video) in
      disk s' !! getAssetDiskPath K assetPath = Some (Data file)
      ∧ db s' = <[ID video := stored]> (db start)
      ∧ VideoBody
          (mkVideo 7%N 5000 (Some "http://localhost:8091/assets/k3y.png")
             None 100%N)
        = VideoBody stored.
Proof.
  apply (thumbnail_upload_success cfg K fine
           (upload "alice" "thumbnail" "image/png") start).
  vm_compute. reflexivity.
Defined.

Lemma thumbnail_file_stays_whatever_follows_witness :
  let s' := serve (handlerUploadThumbnail cfg K updateRefused
                     (upload "alice" "thumbnail" "image/png")) start in
  disk s' !! getAssetDiskPath K (getAssetPath K "image/png")
    = Some "BYTES"%string
  ∧ (status s' = Some StatusOK
     ∨ (db s' = db start
        ∧ (status s' = Some StatusUnauthorized
           ∨ status s' = Some StatusInternalServerError))).
Proof.
  apply (thumbnail_file_stays_whatever_follows cfg K updateRefused
           (upload "alice" "thumbnail" "image/png") start 7%N 100%N "alice"
           (mkPart "image/png" "BYTES")); try reflexivity.
  by right.
Defined.

Lemma earlier_upload_success_witness :
  let r := upload "alice" "video" "video/mp4" in
  let s' := serve (Earlier.handlerUploadVideo cfg K fine objectURL r) start in
  ∃ videoID token video file events,
    uuid_Parse K (videoIDString r) = Ok videoID
    ∧ GetBearerToken K (Header r) = Ok token
    ∧ ValidateJWT K token (jwtSecret cfg) = Ok (UserID video)
    ∧ db start !! videoID = Some video
    ∧ formPart r "video" = Ok file
    ∧ let key := getAssetPath K "video/mp4" in
      let stored := setVideoURL (Some (objectURL key)) video in
      objects s' = <[(s3Bucket cfg, key) := (Data file, "video/mp4"%string)]>
                     (objects start)
      ∧ db s' = <[ID video := stored]> (db start)
      ∧ VideoBody
          (mkVideo 7%N 1000 None
             (Some "https://tubely-bucket.s3.us-east-2.amazonaws.com/k3y.mp4")
             100%N)
        = VideoBody stored
      ∧ log s' = log start ++ events
      ∧ ∀ e, e ∈ events →
          ∀ a b c, e ≠ EvProbe a ∧ e ≠ EvRemux a b ∧ e ≠ EvPresign a b c.
Proof.
  apply (earlier_upload_success cfg K fine objectURL
           (upload "alice" "video" "video/mp4") start).
  vm_compute. reflexivity.
Defined.

Lemma earlier_leaves_disk_as_found_witness :
  disk (serve (Earlier.handlerUploadVideo cfg K putRefused objectURL
                 (upload "alice" "video" "video/mp4")) busy)
  = disk busy.
Proof.
  apply (earlier_leaves_disk_as_found cfg K putRefused objectURL
           (upload "alice" "video" "video/mp4") busy).
  intros name [= <-]. reflexivity.
Defined.

Lemma revisions_agree_on_refusals_witness :
  serve (Earlier.handlerUploadVideo cfg K fine objectURL
           (upload "bob" "video" "video/mp4")) start
  = serve (handlerUploadVideo cfg K fine
             (upload "bob" "video" "video/mp4")) start.
Proof.
  apply (revisions_agree_on_refusals cfg K fine objectURL
           (upload "bob" "video" "video/mp4") start).
  right. reflexivity.
Defined.

Lemma video_probe_failure_witness :
  let s' := serve (handlerUploadVideo cfg K zeroHeight
                     (upload "alice" "video" "video/mp4")) start in
  ∃ err events,
    Some ErrHeightZero = Some err
    ∧ getVideoAspectRatio (ffprobe zeroHeight) = Fail err
    ∧ ((∃ cause, err = ErrFfprobeFailed cause)
       ∨ (∃ cause, err = ErrFfprobeParse cause)
       ∨ err = ErrNoVideoStreams ∨ err = ErrHeightZero)
    ∧ db s' = db start ∧ objects s' = objects start
    ∧ log s' = log start ++ events
    ∧ ∀ input output, EvRemux input output ∉ events.
Proof.
  apply (video_probe_failure cfg K zeroHeight
           (upload "alice" "video" "video/mp4") start (Some ErrHeightZero)).
  vm_compute. reflexivity.
Defined.

Lemma video_handler_disk_after_call_witness :
  let s' := serve (handlerUploadVideo cfg K emptyOutput
                     (upload "alice" "video" "video/mp4")) busy in
  disk s' = disk busy
  ∨ ∃ name bytes,
      createTemp emptyOutput = Ok name
      ∧ written (ffmpeg emptyOutput) = Some bytes
      ∧ ((∃ err, exitError (ffmpeg emptyOutput) = Some err)
         ∨ bytes = EmptyString)
      ∧ disk s' = <[name +:+ ".processing" := bytes]> (disk busy).
Proof.
  apply (video_handler_disk_after_call cfg K emptyOutput
           (upload "alice" "video" "video/mp4") busy).
  intros name [= <-]. split; reflexivity.
Defined.

End MoreDeployment.
